(** * The configuration store of agento's monitor package

    A shallow embedding of [monitor/ConfigurationStore.go]: the store that
    reads hosts and monitors from the global configuration file, keeps them in
    two Go maps keyed by [bson.ObjectId], and tells a [Broadcaster] about every
    change.

    Go values are modelled as follows.
    - [bson.ObjectId] is a Go [string] holding the raw bytes of the identifier;
      it is a [string] here, and [ObjectIdHex] is the hexadecimal decoder that
      panics on anything but 24 hexadecimal digits.
    - [map[bson.ObjectId]Host] is a [gmap ObjectId Host]: the map holds Host
      values, not references to them.
    - A [*Host] or [*Monitor] is an address into a memory of Host (Monitor)
      variables, so that what a caller does through a pointer it was handed is
      an operation on the modelled state.
    - An operation returns a [result]: a value, a Go [error], or a panic. *)

From stdpp Require Import base option list gmap strings fin_maps.
From Stdlib Require Import ZArith NArith Ascii String.

Open Scope string_scope.
Open Scope Z_scope.

(** ** Identifiers *)

Abbreviation ObjectId := string (only parsing).

(** [encoding/hex]: the value of one hexadecimal digit. *)
Definition fromHexChar (c : ascii) : option N :=
  let n := N_of_ascii c in
  if ((48 <=? n) && (n <=? 57))%N then Some (n - 48)%N
  else if ((97 <=? n) && (n <=? 102))%N then Some (n - 97 + 10)%N
  else if ((65 <=? n) && (n <=? 70))%N then Some (n - 65 + 10)%N
  else None.

(** [hex.DecodeString]: two digits per byte; an odd length or a character that
    is no hexadecimal digit is an error. *)
Fixpoint hexDecodeString (s : string) : option string :=
  match s with
  | EmptyString => Some EmptyString
  | String a (String b rest) =>
      match fromHexChar a, fromHexChar b, hexDecodeString rest with
      | Some hi, Some lo, Some d => Some (String (ascii_of_N (16 * hi + lo)) d)
      | _, _, _ => None
      end
  | String _ EmptyString => None
  end.

(** [bson.ObjectIdHex]: [None] stands for the panic
    "invalid input to ObjectIdHex" that the library raises when the decoding
    fails or does not give 12 bytes. *)
Definition ObjectIdHex (s : string) : option ObjectId :=
  match hexDecodeString s with
  | Some d => if Nat.eqb (String.length d) 12 then Some d else None
  | None => None
  end.

(** The identifier the scheduler and the javascript client expect for
    localhost: twelve zero bytes. *)
Definition zeroByte : ascii := ascii_of_N 0.

Definition localhostId : ObjectId :=
  Eval cbv in
    String zeroByte (String zeroByte (String zeroByte (String zeroByte
   (String zeroByte (String zeroByte (String zeroByte (String zeroByte
   (String zeroByte (String zeroByte (String zeroByte (String zeroByte
    EmptyString))))))))))).

Definition localhostHex : string := "000000000000000000000000".

(** ** Errors and results *)

Inductive error : Type :=
  | ErrHostNotFound                (* errors.New("Host not found") *)
  | ErrMonitorNotFound             (* errors.New("Monitor not found") *)
  | ErrorInvalidId                 (* package-level error of package monitor *)
  | Errorf (msg : string)          (* the value of a fmt.Errorf call *)
  | DecodeError (key : string).    (* an error returned by PrimitiveDecode *)

Inductive result (A : Type) : Type :=
  | Ok (a : A)
  | Err (e : error)
  | Panic (msg : string).

Arguments Ok {A} a.
Arguments Err {A} e.
Arguments Panic {A} msg.

#[global] Instance result_ret : MRet result := fun _ a => Ok a.

#[global] Instance result_bind : MBind result := fun _ _ k r =>
  match r with
  | Ok a => k a
  | Err e => Err e
  | Panic msg => Panic msg
  end.

(** ** Raw configuration records *)

Inductive TomlValue : Type :=
  | TString (s : string)
  | TInteger (i : Z)
  | TBool (b : bool).

(** A [toml.Primitive] holding a table: keys with undecoded values. *)
Abbreviation Primitive := (gmap string TomlValue) (only parsing).

(** What [PrimitiveDecode] does for one string field of the target struct: an
    absent key leaves the field as it is, a string value is stored, a value of
    another type is a decode error. *)
Definition decodeString (key : string) (p : Primitive) (current : string)
  : result string :=
  match p !! key with
  | None => Ok current
  | Some (TString s) => Ok s
  | Some _ => Err (DecodeError key)
  end.

(** A registered plugin: the constructor of an empty instance, and what
    [PrimitiveDecode] does with a record and that instance ([inl] is the
    message of its error). *)
Record Plugin (I : Type) : Type := {
  construct : I;
  primitiveDecode : Primitive -> I -> string + I
}.

Arguments construct {I} _.
Arguments primitiveDecode {I} _ _ _.

(** ** Entities *)

(** Modelled from the spec: the declaration of [Host] (its fields and their
    toml keys) is in a file of package monitor other than the store's.
    [hostId] and [hostName] are the fields [Id] and [Name]; [Transport] is
    the interface value, [None] for nil. *)
Record Host (T : Type) : Type := mkHost {
  hostId : ObjectId;
  hostName : string;
  TransportId : string;
  Transport : option T
}.

Arguments mkHost {T} _ _ _ _.
Arguments hostId {T} _.
Arguments hostName {T} _.
Arguments TransportId {T} _.
Arguments Transport {T} _.

(** Modelled from the spec: the declaration of [Monitor]. [monId] is the
    field [Id], [Agent] is [Job.Agent], and [Interval] is a [time.Duration],
    a number of nanoseconds. *)
Record Monitor (A : Type) : Type := mkMonitor {
  monId : ObjectId;
  HostId : ObjectId;
  Interval : Z;
  Agent : option A
}.

Arguments mkMonitor {A} _ _ _ _.
Arguments monId {A} _.
Arguments HostId {A} _.
Arguments Interval {A} _.
Arguments Agent {A} _.

Definition second : Z := 1000000000.

Definition setHostId {T} (id : ObjectId) (h : Host T) : Host T :=
  mkHost id (hostName h) (TransportId h) (Transport h).

Definition setHostName {T} (name : string) (h : Host T) : Host T :=
  mkHost (hostId h) name (TransportId h) (Transport h).

Definition setTransportId {T} (t : string) (h : Host T) : Host T :=
  mkHost (hostId h) (hostName h) t (Transport h).

Definition setTransport {T} (t : option T) (h : Host T) : Host T :=
  mkHost (hostId h) (hostName h) (TransportId h) t.

Definition setMonId {A} (id : ObjectId) (m : Monitor A) : Monitor A :=
  mkMonitor id (HostId m) (Interval m) (Agent m).

Definition setHostIdOf {A} (id : ObjectId) (m : Monitor A) : Monitor A :=
  mkMonitor (monId m) id (Interval m) (Agent m).

Definition setAgent {A} (a : option A) (m : Monitor A) : Monitor A :=
  mkMonitor (monId m) (HostId m) (Interval m) a.

(** [Host{}] *)
Definition zeroHost {T} : Host T := mkHost "" "" "" None.

(** Modelled from the spec: the first decode of a host record fills the common
    fields, the name and the transport selector. *)
Definition decodeHost {T} (p : Primitive) (h : Host T) : result (Host T) :=
  name ← decodeString "name" p (hostName h);
  t ← decodeString "transport" p (TransportId h);
  Ok (setTransportId t (setHostName name h)).

(** The proxy struct of the monitor loop, with its two tagged fields. *)
Record Proxy : Type := mkProxy {
  proxyHost : string;
  proxyAgentID : string
}.

Definition decodeProxy (p : Primitive) (x : Proxy) : result Proxy :=
  h ← decodeString "host" p (proxyHost x);
  a ← decodeString "agent" p (proxyAgentID x);
  Ok (mkProxy h a).


(** ** The state of the process

    The two maps of the store, the Host and Monitor variables that pointers
    refer to, what the Broadcaster has been asked to publish, and how many
    identifiers [bson.NewObjectId] has handed out. *)

Inductive Payload (T A : Type) : Type :=
  | HostPayload (p : nat) (h : Host T)
  | MonitorPayload (p : nat) (m : Monitor A).

Arguments HostPayload {T A} p h.
Arguments MonitorPayload {T A} p m.

(** One call of [Broadcast]: the name, the pointer passed with what it
    pointed to, and the two maps as they were when the call was made. *)
Record Event (T A : Type) : Type := mkEvent {
  evName : string;
  evPayload : Payload T A;
  evHosts : gmap ObjectId (Host T);
  evMonitors : gmap ObjectId (Monitor A)
}.

Arguments mkEvent {T A} _ _ _ _.
Arguments evName {T A} _.
Arguments evPayload {T A} _.
Arguments evHosts {T A} _.
Arguments evMonitors {T A} _.

Record World (T A : Type) : Type := mkWorld {
  hosts : gmap ObjectId (Host T);
  monitors : gmap ObjectId (Monitor A);
  hostMem : list (Host T);
  monMem : list (Monitor A);
  published : list (Event T A);
  issued : nat
}.

Arguments mkWorld {T A} _ _ _ _ _ _.
Arguments hosts {T A} _.
Arguments monitors {T A} _.
Arguments hostMem {T A} _.
Arguments monMem {T A} _.
Arguments published {T A} _.
Arguments issued {T A} _.

Definition setHosts {T A} (m : gmap ObjectId (Host T)) (w : World T A) : World T A :=
  mkWorld m (monitors w) (hostMem w) (monMem w) (published w) (issued w).

Definition setMonitors {T A} (m : gmap ObjectId (Monitor A)) (w : World T A) : World T A :=
  mkWorld (hosts w) m (hostMem w) (monMem w) (published w) (issued w).

Definition setHostMem {T A} (l : list (Host T)) (w : World T A) : World T A :=
  mkWorld (hosts w) (monitors w) l (monMem w) (published w) (issued w).

Definition setMonMem {T A} (l : list (Monitor A)) (w : World T A) : World T A :=
  mkWorld (hosts w) (monitors w) (hostMem w) l (published w) (issued w).

(** [&host] of a local variable that outlives the call: a new Host variable. *)
Definition allocHost {T A} (h : Host T) (w : World T A) : nat * World T A :=
  (List.length (hostMem w), setHostMem (hostMem w ++ [h])%list w).

Definition allocMonitor {T A} (m : Monitor A) (w : World T A) : nat * World T A :=
  (List.length (monMem w), setMonMem (monMem w ++ [m])%list w).

(** [s.changes.Broadcast(name, payload)] *)
Definition Broadcast {T A} (name : string) (payload : Payload T A) (w : World T A)
  : World T A :=
  mkWorld (hosts w) (monitors w) (hostMem w) (monMem w)
          (published w ++ [mkEvent name payload (hosts w) (monitors w)])%list
          (issued w).

(** The body of [for _, host := range s.hosts] in [GetHostByName], over the
    entries in the order the loop visits them. *)
Fixpoint firstNamed {T} (name : string) (entries : list (ObjectId * Host T))
  : option (Host T) :=
  match entries with
  | [] => None
  | (_, host) :: rest =>
      if decide (hostName host = name) then Some host else firstNamed name rest
  end.

Definition hostNotFoundMessage (name : string) : string :=
  "Host '" ++ name ++ "' not found".

Definition unknownTransportMessage (t : string) : string :=
  "unknown transport '" ++ t ++ "'".

Definition unknownAgentMessage (a : string) : string :=
  "unknown agent '" ++ a ++ "'".

Definition nilDereference : string :=
  "invalid memory address or nil pointer dereference".

Definition invalidObjectIdHex : string := "invalid input to ObjectIdHex".

(** The configuration, as the two loops of the constructor see it: the entries
    of the hosts table and the monitor records, each in the order in which
    [range] yields them. *)
Record Configuration : Type := mkConfiguration {
  cfgHosts : list (string * Primitive);
  cfgMonitors : list Primitive
}.

Section Store.

Context {T A : Type}.

(** [plugins.GetTransports()] and [plugins.GetAgents()] *)
Variable GetTransports : gmap string (Plugin T).
Variable GetAgents : gmap string (Plugin A).

(** [objectIdSeq n] is the identifier that the [n]-th call of
    [bson.NewObjectId] in this process returns. *)
Variable objectIdSeq : nat -> ObjectId.

(** The order in which [range] visits a map of hosts: Go leaves it open. *)
Variable rangeHosts : gmap ObjectId (Host T) -> list (ObjectId * Host T).

Definition NewObjectId (w : World T A) : ObjectId * World T A :=
  (objectIdSeq (issued w),
   mkWorld (hosts w) (monitors w) (hostMem w) (monMem w) (published w)
           (S (issued w))).

(** *** The operations of the store *)

Definition AddHost (w : World T A) (host : nat) : result unit * World T A :=
  let '(id, w) := NewObjectId w in
  match hostMem w !! host with
  | None => (Panic nilDereference, w)
  | Some h =>
      let h := setHostId id h in
      let w := setHostMem (<[host := h]> (hostMem w)) w in
      let w := setHosts (<[hostId h := h]> (hosts w)) w in
      (Ok tt, Broadcast "hostadd" (HostPayload host h) w)
  end.

Definition GetHost (w : World T A) (id : string) : result nat * World T A :=
  match ObjectIdHex id with
  | None => (Panic invalidObjectIdHex, w)
  | Some k =>
      match hosts w !! k with
      | None => (Err ErrorInvalidId, w)
      | Some host => let '(p, w) := allocHost host w in (Ok p, w)
      end
  end.

Definition GetHostByName (w : World T A) (name : string) : result nat * World T A :=
  match firstNamed name (rangeHosts (hosts w)) with
  | Some host => let '(p, w) := allocHost host w in (Ok p, w)
  | None => (Err (Errorf (hostNotFoundMessage name)), w)
  end.

Definition DeleteHost (w : World T A) (id : string) : result unit * World T A :=
  match ObjectIdHex id with
  | None => (Panic invalidObjectIdHex, w)
  | Some k =>
      match hosts w !! k with
      | None => (Err ErrHostNotFound, w)
      | Some host =>
          match ObjectIdHex id with
          | None => (Panic invalidObjectIdHex, w)
          | Some k' =>
              let w := setHosts (delete k' (hosts w)) w in
              let '(p, w) := allocHost host w in
              (Ok tt, Broadcast "hostdelete" (HostPayload p host) w)
          end
      end
  end.

Definition AddMonitor (w : World T A) (mon : nat) : result unit * World T A :=
  let '(id, w) := NewObjectId w in
  match monMem w !! mon with
  | None => (Panic nilDereference, w)
  | Some m =>
      let m := setMonId id m in
      let w := setMonMem (<[mon := m]> (monMem w)) w in
      let w := setMonitors (<[monId m := m]> (monitors w)) w in
      (Ok tt, Broadcast "monadd" (MonitorPayload mon m) w)
  end.

Definition UpdateMonitor (w : World T A) (mon : nat) : result unit * World T A :=
  match monMem w !! mon with
  | None => (Panic nilDereference, w)
  | Some m =>
      let w := setMonitors (<[monId m := m]> (monitors w)) w in
      (Ok tt, Broadcast "monchange" (MonitorPayload mon m) w)
  end.

Definition DeleteMonitor (w : World T A) (id : string) : result unit * World T A :=
  match ObjectIdHex id with
  | None => (Panic invalidObjectIdHex, w)
  | Some k =>
      match monitors w !! k with
      | None => (Err ErrMonitorNotFound, w)
      | Some m =>
          match ObjectIdHex id with
          | None => (Panic invalidObjectIdHex, w)
          | Some k' =>
              let w := setMonitors (delete k' (monitors w)) w in
              let '(p, w) := allocMonitor m w in
              (Ok tt, Broadcast "mondelete" (MonitorPayload p m) w)
          end
      end
  end.

(** *** The constructor *)

(** The body of the loop over the host records. *)
Definition loadHost (s : World T A) (entry : string * Primitive)
  : result (World T A) :=
  let '(name, primitiveHost) := entry in
  host ← decodeHost primitiveHost zeroHost;
  let host := setHostName name host in
  '(id, s) ← (if decide (hostName host = "localhost")
              then match ObjectIdHex localhostHex with
                   | Some id => Ok (id, s)
                   | None => Panic invalidObjectIdHex
                   end
              else Ok (NewObjectId s));
  let host := setHostId id host in
  match GetTransports !! TransportId host with
  | None => Err (Errorf (unknownTransportMessage (TransportId host)))
  | Some plugin =>
      match primitiveDecode plugin primitiveHost (construct plugin) with
      | inl msg => Panic msg
      | inr transport =>
          let host := setTransport (Some transport) host in
          Ok (setHosts (<[hostId host := host]> (hosts s)) s)
      end
  end.

(** The body of the loop over the monitor records. *)
Definition loadMonitor (s : World T A) (primitiveMonitor : Primitive)
  : result (World T A) :=
  let monitor := mkMonitor "" "" (second * 10) None in
  proxy ← decodeProxy primitiveMonitor (mkProxy "" "");
  match GetHostByName s (proxyHost proxy) with
  | (Panic msg, _) => Panic msg
  | (Err e, _) => Err e
  | (Ok p, s) =>
      match hostMem s !! p with
      | None => Panic nilDereference
      | Some host =>
          let monitor := setHostIdOf (hostId host) monitor in
          let '(id, s) := NewObjectId s in
          let monitor := setMonId id monitor in
          match GetAgents !! proxyAgentID proxy with
          | None => Err (Errorf (unknownAgentMessage (proxyAgentID proxy)))
          | Some plugin =>
              match primitiveDecode plugin primitiveMonitor (construct plugin) with
              | inl msg => Panic msg
              | inr agent =>
                  let monitor := setAgent (Some agent) monitor in
                  Ok (setMonitors (<[monId monitor := monitor]> (monitors s)) s)
              end
          end
      end
  end.

(** A [for ... range] loop whose body may return from the function. *)
Fixpoint forRange {R} (body : World T A -> R -> result (World T A))
  (records : list R) (s : World T A) : result (World T A) :=
  match records with
  | [] => Ok s
  | r :: rest => s ← body s r; forRange body rest s
  end.

(** [NewConfigurationStore(config, changes)], in a process that has drawn
    [n0] identifiers so far. *)
Definition NewConfigurationStore (config : Configuration) (n0 : nat)
  : result (World T A) :=
  let s := mkWorld ∅ ∅ [] [] [] n0 in
  s ← forRange loadHost (cfgHosts config) s;
  forRange loadMonitor (cfgMonitors config) s.

End Store.

(** *** The operations that list and search *)

(** [Monitor{}], what [make([]Monitor, l, l)] fills a slice with. *)
Definition zeroMonitor {A} : Monitor A := mkMonitor "" "" 0 None.

(** The loop [for _, x := range m { slice[i] = x; i++ }] over the entries in
    the order the loop visits them; an index beyond the slice is the run-time
    panic of Go. *)
Fixpoint fillSlice {K V} (entries : list (K * V)) (i : nat) (slice : list V)
  : result (list V) :=
  match entries with
  | [] => Ok slice
  | (_, x) :: rest =>
      if decide (i < List.length slice)%nat
      then fillSlice rest (S i) (<[i := x]> slice)
      else Panic "index out of range"
  end.

(** The loop of [GetMonitor]: the id is converted anew in every round, so
    only a round that takes place can panic on it. *)
Fixpoint firstWithId {A} (id : string) (entries : list (ObjectId * Monitor A))
  : result (option (Monitor A)) :=
  match entries with
  | [] => Ok None
  | (_, monitor) :: rest =>
      match ObjectIdHex id with
      | None => Panic invalidObjectIdHex
      | Some k =>
          if decide (monId monitor = k) then Ok (Some monitor)
          else firstWithId id rest
      end
  end.

Section Reads.

Context {T A : Type}.

(** The orders in which [range] visits the two maps. *)
Variable rangeHosts : gmap ObjectId (Host T) -> list (ObjectId * Host T).
Variable rangeMonitors : gmap ObjectId (Monitor A) -> list (ObjectId * Monitor A).

Definition GetAllHosts (w : World T A) : result (list (Host T)) * World T A :=
  let l := size (hosts w) in
  let slice := replicate l zeroHost in
  (fillSlice (rangeHosts (hosts w)) 0 slice, w).

Definition GetAllMonitors (w : World T A)
  : result (list (Monitor A)) * World T A :=
  let l := size (monitors w) in
  let slice := replicate l zeroMonitor in
  (fillSlice (rangeMonitors (monitors w)) 0 slice, w).

Definition GetMonitor (w : World T A) (id : string) : result nat * World T A :=
  match firstWithId id (rangeMonitors (monitors w)) with
  | Ok (Some monitor) => let '(p, w) := allocMonitor monitor w in (Ok p, w)
  | Ok None => (Err ErrMonitorNotFound, w)
  | Err e => (Err e, w)
  | Panic msg => (Panic msg, w)
  end.

End Reads.

(** ** What the theorems speak about *)

Section Properties.

Context {T A : Type}.
Variable GetTransports : gmap string (Plugin T).
Variable GetAgents : gmap string (Plugin A).
Variable objectIdSeq : nat -> ObjectId.
Variable rangeHosts : gmap ObjectId (Host T) -> list (ObjectId * Host T).

(** Every entry of both maps sits under the key that is its own Id. *)
Definition keyConsistent (w : World T A) : Prop :=
  (∀ k h, hosts w !! k = Some h → hostId h = k) ∧
  (∀ k m, monitors w !! k = Some m → monId m = k).

(** The identifier scheme has not repeated itself, nor produced the reserved
    identifier, within its first [n] identifiers. *)
Definition distinctIds (n : nat) : Prop :=
  NoDup (localhostId :: (objectIdSeq <$> seq 0 n)).

(** Every key of the hosts map is the reserved identifier or one that
    [NewObjectId] has handed out. *)
Definition hostsIssued (w : World T A) : Prop :=
  ∀ k h, hosts w !! k = Some h →
    k = localhostId ∨ ∃ i, (i < issued w)%nat ∧ k = objectIdSeq i.

(** One thing that happens to the process after the store was built: a call
    of AddHost, GetHost, GetHostByName, DeleteHost, AddMonitor, UpdateMonitor
    or DeleteMonitor, or a caller declaring or assigning a Host or Monitor
    variable of its own. (GetMonitor does to the state what declaring a
    Monitor variable does; the two listing operations change nothing.) *)
Inductive step : World T A -> World T A -> Prop :=
  | step_AddHost w p : step w (AddHost objectIdSeq w p).2
  | step_GetHost w id : step w (GetHost w id).2
  | step_GetHostByName w name : step w (GetHostByName rangeHosts w name).2
  | step_DeleteHost w id : step w (DeleteHost w id).2
  | step_AddMonitor w p : step w (AddMonitor objectIdSeq w p).2
  | step_UpdateMonitor w p : step w (UpdateMonitor w p).2
  | step_DeleteMonitor w id : step w (DeleteMonitor w id).2
  | step_newHost w h : step w (allocHost h w).2
  | step_newMonitor w m : step w (allocMonitor m w).2
  | step_assignHost w p h : step w (setHostMem (<[p := h]> (hostMem w)) w)
  | step_assignMonitor w p m : step w (setMonMem (<[p := m]> (monMem w)) w).

(** The states a process can be in once the constructor has returned a store. *)
Inductive reachable : World T A -> Prop :=
  | reachable_load config n0 w :
      NewConfigurationStore GetTransports GetAgents objectIdSeq rangeHosts
        config n0 = Ok w →
      reachable w
  | reachable_step w w' : reachable w → step w w' → reachable w'.

(** The transport selector of a host record: what the first decode leaves in
    [TransportId]. *)
Definition selectorOf (p : Primitive) : option string :=
  match decodeHost (T := T) p zeroHost with
  | Ok h => Some (TransportId h)
  | _ => None
  end.

(** The host a monitor record refers to: what the decode of the proxy leaves
    in its [Host] field. *)
Definition referencedHost (p : Primitive) : option string :=
  match decodeProxy p (mkProxy "" "") with
  | Ok x => Some (proxyHost x)
  | _ => None
  end.

(** The interval a monitor record asks for; an absent field asks for the
    default of ten seconds. *)
Definition requestedInterval (p : Primitive) : option Z :=
  match p !! "interval" with
  | None => Some (second * 10)
  | Some (TInteger i) => Some i
  | Some _ => None
  end.


(** The identifier a host of this name gets in state [s]. *)
Definition hostIdFor (name : string) (s : World T A) : ObjectId :=
  if decide (name = "localhost") then localhostId else objectIdSeq (issued s).

Definition issuedAfterHost (name : string) (s : World T A) : nat :=
  if decide (name = "localhost") then issued s else S (issued s).

(** How the identifier of a stored host came about, for a load that started
    when [n0] identifiers had been handed out. *)
Definition assignedBy (n0 : nat) (s : World T A) (h : Host T) : Prop :=
  if decide (hostName h = "localhost") then hostId h = localhostId
  else ∃ i, (n0 ≤ i < issued s)%nat ∧ hostId h = objectIdSeq i.

(** The state of the hosts loop once the records of the names [done] have
    been visited. *)
Definition hostsLoaded (n0 : nat) (done : list string) (s : World T A) : Prop :=
  (∀ k h, hosts s !! k = Some h →
     hostId h = k ∧ hostName h ∈ done ∧ assignedBy n0 s h) ∧
  (∀ name, name ∈ done → ∃ h, hosts s !! hostId h = Some h ∧ hostName h = name) ∧
  size (hosts s) = List.length done ∧
  (n0 ≤ issued s)%nat.

(** Three sentences of the specification about the constructor, as the
    specification words them. *)

(** The specification on unknown transports: whenever some host record
    selects a transport that is not registered, the constructor returns an
    error that names an unregistered transport. *)
Definition unknownTransportReported : Prop :=
  ∀ config n0 name (p : Primitive) t,
    (name, p) ∈ cfgHosts config →
    selectorOf p = Some t →
    GetTransports !! t = None →
    ∃ t', GetTransports !! t' = None ∧
      NewConfigurationStore GetTransports GetAgents objectIdSeq rangeHosts
        config n0 = Err (Errorf (unknownTransportMessage t')).

(** The specification on intervals: every monitor record is loaded as a
    monitor with the interval the record asks for. *)
Definition intervalsAsRequested : Prop :=
  ∀ config n0 w (p : Primitive) i,
    NewConfigurationStore GetTransports GetAgents objectIdSeq rangeHosts
      config n0 = Ok w →
    p ∈ cfgMonitors config →
    requestedInterval p = Some i →
    ∃ k m, monitors w !! k = Some m ∧ Interval m = i.


End Properties.

Section ReadProperties.

Context {T A : Type}.

(** A call has left the store and the process as they were: the two maps, the
    broadcasts and the identifiers drawn are the same, and every variable
    that existed holds what it held. *)
Definition untouched (w w' : World T A) : Prop :=
  hosts w' = hosts w ∧ monitors w' = monitors w ∧
  published w' = published w ∧ issued w' = issued w ∧
  hostMem w `prefix_of` hostMem w' ∧ monMem w `prefix_of` monMem w'.

(** The agent selector of a monitor record: what the decode of the proxy
    leaves in its [AgentID] field. *)
Definition selectedAgent (p : Primitive) : option string :=
  match decodeProxy p (mkProxy "" "") with
  | Ok x => Some (proxyAgentID x)
  | _ => None
  end.

(** Every key of the monitors map is an identifier that [NewObjectId] has
    handed out since [n0] identifiers had been drawn. *)
Definition monitorsIssued (objectIdSeq : nat -> ObjectId) (n0 : nat)
    (s : World T A) : Prop :=
  ∀ k m, monitors s !! k = Some m →
    ∃ i, (n0 ≤ i < issued s)%nat ∧ k = objectIdSeq i.

(** The host records that are not the one of localhost: those for which the
    constructor draws an identifier. *)
Definition drawingHosts (records : list (string * Primitive))
  : list (string * Primitive) :=
  filter (fun r => r.1 ≠ "localhost") records.

End ReadProperties.

(** ** A small installation, for concrete runs *)

Module Demo.

(** Two transports: one without fields of its own, one that reads an
    [address]. An instance is modelled by the address it holds. *)
Definition transports : gmap string (Plugin string) :=
  {[ "localtransport" :=
       {| construct := ""; primitiveDecode := fun _ i => inr i |};
     "ssh" :=
       {| construct := "";
          primitiveDecode := fun p i =>
            match decodeString "address" p i with
            | Ok s => inr s
            | _ => inl "toml: incompatible types"
            end |} ]}.

(** One agent without fields of its own. *)
Definition agents : gmap string (Plugin unit) :=
  {[ "cpustats" := {| construct := tt; primitiveDecode := fun _ i => inr i |} ]}.

(** Twelve-byte identifiers that differ in their first byte. *)
Definition ids (n : nat) : ObjectId :=
  String (ascii_of_nat (S n)) "abcdefghijk".

Definition order (m : gmap ObjectId (Host string)) : list (ObjectId * Host string) :=
  map_to_list m.

Definition localRecord : Primitive :=
  {[ "transport" := TString "localtransport" ]}.

Definition sshRecord : Primitive :=
  {[ "transport" := TString "ssh"; "address" := TString "10.0.0.7" ]}.

(** A host record whose transport selector is not a string. *)
Definition brokenRecord : Primitive :=
  {[ "transport" := TInteger 7 ]}.

(** A host record that selects a transport nobody registered. *)
Definition telnetRecord : Primitive :=
  {[ "transport" := TString "telnet" ]}.

(** A monitor record that asks for an interval of thirty seconds. *)
Definition cpuRecord : Primitive :=
  {[ "host" := TString "web"; "agent" := TString "cpustats";
     "interval" := TInteger (second * 30) ]}.


Definition config : Configuration :=
  mkConfiguration [("localhost", localRecord); ("web", sshRecord)] [cpuRecord].

(** The unregistered transport, met after a record that does not decode. *)
Definition brokenConfig : Configuration :=
  mkConfiguration [("web", brokenRecord); ("old", telnetRecord)] [].

(** The unregistered transport, met after a record that loads. *)
Definition telnetConfig : Configuration :=
  mkConfiguration [("localhost", localRecord); ("old", telnetRecord)] [cpuRecord].



(** A host as a caller may hand it to AddHost, with an Id already in it. *)
Definition newHost : Host string :=
  mkHost "set-by-hand." "backup" "ssh" None.

(** A monitor as a caller may hand it to UpdateMonitor. *)
Definition newMonitor : Monitor unit :=
  mkMonitor "monitor-0001" localhostId (second * 60) None.

Definition load (c : Configuration) : result (World string unit) :=
  NewConfigurationStore transports agents ids order c 0.

(** The state after loading [config]. *)
Definition loaded : World string unit :=
  match load config with
  | Ok w => w
  | _ => mkWorld ∅ ∅ [] [] [] 0%nat
  end.

Definition monitorOrder (m : gmap ObjectId (Monitor unit))
  : list (ObjectId * Monitor unit) :=
  map_to_list m.

(** The loaded state once a caller has declared the variable [newHost]; its
    address is 1, after the variable the load left behind. *)
Definition withHost : World string unit := (allocHost newHost loaded).2.

(** The loaded state once a caller has declared the variable [newMonitor],
    at address 0. *)
Definition withMonitor : World string unit := (allocMonitor newMonitor loaded).2.

(** A monitor record whose agent nobody registered. *)
Definition pingRecord : Primitive :=
  {[ "host" := TString "web"; "agent" := TString "ping" ]}.

Definition pingConfig : Configuration :=
  mkConfiguration [("localhost", localRecord); ("web", sshRecord)]
                  [cpuRecord; pingRecord].

(** A host record that the ssh transport cannot decode. *)
Definition badAddressRecord : Primitive :=
  {[ "transport" := TString "ssh"; "address" := TInteger 22 ]}.

Definition badAddressConfig : Configuration :=
  mkConfiguration [("localhost", localRecord); ("gw", badAddressRecord)] [].

(** A registry with an agent that reads a [note] and fails on one that is no
    string. *)
Definition strictAgents : gmap string (Plugin unit) :=
  {[ "cpustats" := {| construct := tt; primitiveDecode := fun _ i => inr i |};
     "noted" :=
       {| construct := tt;
          primitiveDecode := fun p i =>
            match decodeString "note" p "" with
            | Ok _ => inr i
            | _ => inl "toml: incompatible types"
            end |} ]}.

(** A monitor record that the noted agent cannot decode. *)
Definition badNoteRecord : Primitive :=
  {[ "host" := TString "web"; "agent" := TString "noted"; "note" := TBool true ]}.

Definition badNoteConfig : Configuration :=
  mkConfiguration [("web", sshRecord)] [badNoteRecord].

End Demo.

(** ** The operations of the store *)

Lemma ObjectIdHex_localhost : ObjectIdHex localhostHex = Some localhostId.
Proof. reflexivity. Qed.

Section Operations.

Context {T A : Type}.
Variable objectIdSeq : nat -> ObjectId.
Variable rangeHosts : gmap ObjectId (Host T) -> list (ObjectId * Host T).
Hypothesis rangeHosts_perm : ∀ m, rangeHosts m ≡ₚ map_to_list m.

Implicit Types (w : World T A) (h host : Host T) (m : Monitor A).

Lemma elem_of_rangeHosts (hs : gmap ObjectId (Host T)) k h :
  (k, h) ∈ rangeHosts hs ↔ hs !! k = Some h.
Proof. rewrite (rangeHosts_perm hs). apply elem_of_map_to_list. Qed.

Lemma firstNamed_Some name (l : list (ObjectId * Host T)) h :
  firstNamed name l = Some h → hostName h = name ∧ ∃ k, (k, h) ∈ l.
Proof.
  induction l as [|[k0 h0] l IH]; simpl; [discriminate|].
  destruct (decide (hostName h0 = name)) as [Hn|Hn].
  - intros [= <-]. split; [done|]. exists k0. left.
  - intros Hf. destruct (IH Hf) as [? [k Hk]]. split; [done|].
    exists k. by right.
Qed.

Lemma firstNamed_None name (l : list (ObjectId * Host T)) :
  firstNamed name l = None ↔ ∀ k h, (k, h) ∈ l → hostName h ≠ name.
Proof.
  induction l as [|[k0 h0] l IH]; simpl.
  - split; [|done]. intros _ k h Hin. by apply elem_of_nil in Hin.
  - destruct (decide (hostName h0 = name)) as [Hn|Hn].
    + split; [discriminate|]. intros Hall. destruct (Hall k0 h0); [left|done].
    + rewrite IH. split.
      * intros Hall k h [[= -> ->]|Hin]%elem_of_cons; eauto.
      * intros Hall k h Hin. apply (Hall k). by right.
Qed.


(** GetHostByName when some host has the name: a new Host variable holding
    one of the stored hosts of that name. *)
Lemma GetHostByName_known w name :
  (∃ k h, hosts w !! k = Some h ∧ hostName h = name) →
  ∃ k host, hosts w !! k = Some host ∧ hostName host = name ∧
    GetHostByName rangeHosts w name =
      (Ok (List.length (hostMem w)), setHostMem (hostMem w ++ [host])%list w).
Proof.
  intros (k0 & h0 & Hk0 & Hn0). unfold GetHostByName.
  destruct (firstNamed name (rangeHosts (hosts w))) as [host|] eqn:Hf.
  - apply firstNamed_Some in Hf as [Hn [k Hk]].
    apply elem_of_rangeHosts in Hk. by exists k, host.
  - exfalso. rewrite firstNamed_None in Hf.
    apply (Hf k0 h0); [by apply elem_of_rangeHosts|done].
Qed.

(** C3, at a malformed id: GetHost neither returns a host nor InvalidIdError;
    the call panics inside the conversion of the id, whatever the store
    holds. *)
Theorem GetHost_malformed_id_panics w :
  GetHost w "localhost" = (Panic invalidObjectIdHex, w).
Proof. reflexivity. Qed.

(** For a well-formed id, GetHost gives a copy of the stored host or
    ErrorInvalidId. *)
Lemma GetHost_well_formed w id k :
  ObjectIdHex id = Some k →
  GetHost w id =
    match hosts w !! k with
    | Some host =>
        (Ok (List.length (hostMem w)), setHostMem (hostMem w ++ [host])%list w)
    | None => (Err ErrorInvalidId, w)
    end.
Proof. intros Hk. unfold GetHost. rewrite Hk. by destruct (hosts w !! k). Qed.


(** C8: UpdateMonitor never returns an error, and given a monitor it returns
    nil after storing the monitor under the monitor's own id, in place of the
    entry that id had or as a new entry when it had none, and broadcasting
    one "monchange" event. *)
Theorem UpdateMonitor_upsert w p m :
  monMem w !! p = Some m →
  (∀ w0 p0 e, (UpdateMonitor w0 p0).1 ≠ Err e) ∧
  ∃ w', UpdateMonitor w p = (Ok tt, w') ∧
    monitors w' = <[monId m := m]> (monitors w) ∧
    monitors w' !! monId m = Some m ∧
    (∀ k, k ≠ monId m → monitors w' !! k = monitors w !! k) ∧
    (is_Some (monitors w !! monId m) → size (monitors w') = size (monitors w)) ∧
    (monitors w !! monId m = None → size (monitors w') = S (size (monitors w))) ∧
    hosts w' = hosts w ∧
    published w' =
      (published w ++
         [mkEvent "monchange" (MonitorPayload p m)
                  (hosts w) (<[monId m := m]> (monitors w))])%list.
Proof.
  intros Hp. split.
  - intros w0 p0 e. unfold UpdateMonitor. by destruct (monMem w0 !! p0).
  - unfold UpdateMonitor. rewrite Hp. eexists. split; [reflexivity|]. simpl.
    split_and!; try done.
    + apply lookup_insert_eq.
    + intros k Hne. by apply lookup_insert_ne.
    + intros Hsome. by apply map_size_insert_Some.
    + intros Hnone. by apply map_size_insert_None.
Qed.

End Operations.

(** ** The constructor, record by record *)

Section Loader.

Context {T A : Type}.
Variable GetTransports : gmap string (Plugin T).
Variable GetAgents : gmap string (Plugin A).
Variable objectIdSeq : nat -> ObjectId.
Variable rangeHosts : gmap ObjectId (Host T) -> list (ObjectId * Host T).
Hypothesis rangeHosts_perm : ∀ m, rangeHosts m ≡ₚ map_to_list m.

Implicit Types (s w : World T A) (h host : Host T) (m : Monitor A).

(** A host record that loads: it decodes, its transport is registered, the
    second decode succeeds, and one entry is written. *)
Lemma loadHost_Ok s name (p : Primitive) s' :
  loadHost GetTransports objectIdSeq s (name, p) = Ok s' →
  ∃ t plugin transport,
    selectorOf (T := T) p = Some t ∧
    GetTransports !! t = Some plugin ∧
    primitiveDecode plugin p (construct plugin) = inr transport ∧
    s' = mkWorld
           (<[hostIdFor objectIdSeq name s :=
                mkHost (hostIdFor objectIdSeq name s) name t (Some transport)]>
              (hosts s))
           (monitors s) (hostMem s) (monMem s) (published s)
           (issuedAfterHost name s).
Proof.
  unfold loadHost, selectorOf, hostIdFor, issuedAfterHost.
  destruct (decodeHost p zeroHost) as [h0| |] eqn:Hd; simpl; try done.
  destruct (decide (name = "localhost")) as [Hn|Hn]; simpl;
    (destruct (GetTransports !! TransportId h0) as [plugin|] eqn:Hg; [|done]);
    (destruct (primitiveDecode plugin p (construct plugin)) as [|tr] eqn:Hp; [done|]);
    intros [= <-]; exists (TransportId h0), plugin, tr; by split_and!.
Qed.

(** A host record whose selector is not registered stops the load with the
    error that names the selector. *)
Lemma loadHost_unknown_transport s name (p : Primitive) t :
  selectorOf (T := T) p = Some t → GetTransports !! t = None →
  loadHost GetTransports objectIdSeq s (name, p)
    = Err (Errorf (unknownTransportMessage t)).
Proof.
  unfold loadHost, selectorOf.
  destruct (decodeHost p zeroHost) as [h0| |] eqn:Hd; simpl; try done.
  intros [= <-] Hg.
  destruct (decide (name = "localhost")); simpl; by rewrite Hg.
Qed.

(** A monitor record that loads: its host exists by name, its agent is
    registered, and one entry with the ten seconds interval is written. *)
Lemma loadMonitor_Ok s (p : Primitive) s' :
  loadMonitor GetAgents objectIdSeq rangeHosts s p = Ok s' →
  ∃ name k host plugin agent,
    referencedHost p = Some name ∧
    hosts s !! k = Some host ∧ hostName host = name ∧
    primitiveDecode plugin p (construct plugin) = inr agent ∧
    s' = mkWorld (hosts s)
           (<[objectIdSeq (issued s) :=
                mkMonitor (objectIdSeq (issued s)) (hostId host) (second * 10)
                          (Some agent)]> (monitors s))
           (hostMem s ++ [host])%list (monMem s) (published s) (S (issued s)).
Proof.
  unfold loadMonitor, referencedHost.
  destruct (decodeProxy p (mkProxy "" "")) as [x| |] eqn:Hd; simpl; try done.
  unfold GetHostByName.
  destruct (firstNamed (proxyHost x) (rangeHosts (hosts s))) as [host|] eqn:Hf;
    simpl; [|done].
  rewrite lookup_app_r, Nat.sub_diag by done. simpl.
  destruct (GetAgents !! proxyAgentID x) as [plugin|]; [|done].
  destruct (primitiveDecode plugin p (construct plugin)) as [|agent] eqn:Hp; [done|].
  intros [= <-].
  apply firstNamed_Some in Hf as [Hn [k Hk]].
  apply (elem_of_rangeHosts _ rangeHosts_perm) in Hk.
  by exists (proxyHost x), k, host, plugin, agent.
Qed.


(** What holds before a loop and is kept by every round that goes through
    holds when the loop is over. *)
Lemma forRange_invariant {R} (P : World T A → Prop)
    (body : World T A → R → result (World T A)) records s s' :
  (∀ s1 r s2, r ∈ records → P s1 → body s1 r = Ok s2 → P s2) →
  P s → forRange body records s = Ok s' → P s'.
Proof.
  revert s. induction records as [|r rest IH]; simpl; intros s Hstep Hs.
  - by intros [= <-].
  - destruct (body s r) as [s1| |] eqn:Hb; simpl; try done.
    apply IH.
    + intros s2 r' s3 Hin. apply Hstep. by right.
    + eapply Hstep; [left|done..].
Qed.

Lemma forRange_cons {R} (body : World T A → R → result (World T A)) r rest s :
  forRange body (r :: rest) s = (s1 ← body s r; forRange body rest s1).
Proof. reflexivity. Qed.

Lemma result_bind_Ok {X Y} (a : X) (k : X → result Y) : (Ok a ≫= k) = k a.
Proof. reflexivity. Qed.

(** A loop stops at the first round that does not go through. *)
Lemma forRange_app {R} (body : World T A → R → result (World T A)) pre post s :
  forRange body (pre ++ post)%list s = (s1 ← forRange body pre s; forRange body post s1).
Proof.
  revert s. induction pre as [|r pre IH]; simpl; intros s; [done|].
  destruct (body s r); simpl; auto.
Qed.

End Loader.

(** ** The constructor as a whole *)

Section Constructor.

Context {T A : Type}.
Variable GetTransports : gmap string (Plugin T).
Variable GetAgents : gmap string (Plugin A).
Variable objectIdSeq : nat -> ObjectId.
Variable rangeHosts : gmap ObjectId (Host T) -> list (ObjectId * Host T).
Hypothesis rangeHosts_perm : ∀ m, rangeHosts m ≡ₚ map_to_list m.

Implicit Types (s w : World T A) (h host : Host T) (m : Monitor A).

Local Abbreviation load :=
  (NewConfigurationStore GetTransports GetAgents objectIdSeq rangeHosts).
Local Abbreviation hostLoop := (forRange (loadHost GetTransports objectIdSeq)).
Local Abbreviation monitorLoop :=
  (forRange (loadMonitor GetAgents objectIdSeq rangeHosts)).
Local Abbreviation emptyStore n0 := (mkWorld (T := T) (A := A) ∅ ∅ [] [] [] n0).

Lemma load_Ok config n0 w :
  load config n0 = Ok w →
  ∃ s1, hostLoop (cfgHosts config) (emptyStore n0) = Ok s1 ∧
        monitorLoop (cfgMonitors config) s1 = Ok w.
Proof.
  unfold NewConfigurationStore.
  destruct (hostLoop (cfgHosts config) (emptyStore n0)) as [s1| |]; simpl; try done.
  intros Hm. by exists s1.
Qed.

(** In a loop that went through, every record met a state in which the
    invariant held and went through. *)
Lemma forRange_Ok_elem {R} (P : World T A → Prop)
    (body : World T A → R → result (World T A)) records s s' r :
  (∀ s1 r1 s2, P s1 → body s1 r1 = Ok s2 → P s2) →
  P s → forRange body records s = Ok s' → r ∈ records →
  ∃ s1 s2, P s1 ∧ body s1 r = Ok s2.
Proof.
  intros Hstep. revert s. induction records as [|r0 rest IH]; simpl; intros s Hs.
  - intros _ Hin. by apply elem_of_nil in Hin.
  - destruct (body s r0) as [s1| |] eqn:Hb; simpl; try done.
    intros Hrest [->|Hin]%elem_of_cons.
    + by exists s, s1.
    + apply (IH s1); eauto.
Qed.


Lemma monitorLoop_hosts records s s' :
  monitorLoop records s = Ok s' → hosts s' = hosts s.
Proof.
  intros Hloop.
  refine (forRange_invariant (fun s1 => hosts s1 = hosts s) _ records s s' _ eq_refl Hloop).
  intros s1 p s2 _ H1 Hb.
  by apply (loadMonitor_Ok _ _ _ rangeHosts_perm) in Hb
    as (? & ? & ? & ? & ? & _ & _ & _ & _ & ->).
Qed.

(** C2, as amended: a configuration with a host record whose transport
    selector is not registered never yields a store; and when the host
    records that the loop visits before that record all load, what the
    constructor returns is the error that names the selector. *)
Theorem unknown_transport_aborts_load config n0 name (p : Primitive) t :
  (name, p) ∈ cfgHosts config →
  selectorOf (T := T) p = Some t →
  GetTransports !! t = None →
  (∀ w, load config n0 ≠ Ok w) ∧
  (∀ pre post s,
     cfgHosts config = (pre ++ (name, p) :: post)%list →
     hostLoop pre (emptyStore n0) = Ok s →
     load config n0 = Err (Errorf (unknownTransportMessage t))).
Proof.
  intros Hin Hsel Hreg. split.
  - intros w (s1 & Hhosts & _)%load_Ok.
    destruct (forRange_Ok_elem (fun _ => True) _ _ _ _ (name, p)
                (fun _ _ _ _ _ => I) I Hhosts Hin) as (s2 & s3 & _ & Hb).
    by rewrite (loadHost_unknown_transport _ _ _ _ _ t) in Hb.
  - intros pre post s Hsplit Hpre. unfold NewConfigurationStore.
    rewrite Hsplit, forRange_app, Hpre, result_bind_Ok, forRange_cons.
    by rewrite (loadHost_unknown_transport _ _ _ _ _ t).
Qed.

(** C6, as amended: every monitor that the constructor loads has an Interval
    of exactly ten seconds, whatever its record says about an interval. *)
Theorem loaded_interval_is_ten_seconds config n0 w :
  load config n0 = Ok w →
  ∀ k m, monitors w !! k = Some m → Interval m = second * 10.
Proof.
  intros (s1 & Hhosts & Hmons)%load_Ok.
  assert (monitors s1 = ∅) as Hempty.
  { refine (forRange_invariant (fun s => monitors s = ∅) _ _ _ _ _ eq_refl Hhosts).
    intros s2 [name p] s3 _ H2 Hb.
    by apply loadHost_Ok in Hb as (? & ? & ? & _ & _ & _ & ->). }
  refine (forRange_invariant
            (fun s => ∀ k m, monitors s !! k = Some m → Interval m = second * 10)
            _ _ _ _ _ _ Hmons).
  - intros s2 p s3 _ H2 Hb k m.
    apply (loadMonitor_Ok _ _ _ rangeHosts_perm) in Hb
      as (? & ? & ? & ? & ? & _ & _ & _ & _ & ->). simpl.
    rewrite lookup_insert. case_decide; [by intros [= <-]|apply H2].
  - intros k m. by rewrite Hempty, lookup_empty.
Qed.


End Constructor.

(** ** Identifiers of loaded hosts *)

Section Identifiers.

Context {T A : Type}.
Variable GetTransports : gmap string (Plugin T).
Variable GetAgents : gmap string (Plugin A).
Variable objectIdSeq : nat -> ObjectId.
Variable rangeHosts : gmap ObjectId (Host T) -> list (ObjectId * Host T).
Hypothesis rangeHosts_perm : ∀ m, rangeHosts m ≡ₚ map_to_list m.

Implicit Types (s w : World T A) (h host : Host T) (m : Monitor A).

Local Abbreviation load :=
  (NewConfigurationStore GetTransports GetAgents objectIdSeq rangeHosts).
Local Abbreviation hostLoop := (forRange (loadHost GetTransports objectIdSeq)).
Local Abbreviation monitorLoop :=
  (forRange (loadMonitor GetAgents objectIdSeq rangeHosts)).
Local Abbreviation emptyStore n0 := (mkWorld (T := T) (A := A) ∅ ∅ [] [] [] n0).
Local Abbreviation distinct := (distinctIds objectIdSeq).
Local Abbreviation assignedBy := (assignedBy objectIdSeq).
Local Abbreviation hostsLoaded := (hostsLoaded objectIdSeq).

Lemma distinctIds_mono n n' : (n ≤ n')%nat → distinct n' → distinct n.
Proof.
  intros Hle. unfold distinctIds.
  replace n' with (n + (n' - n))%nat by lia.
  rewrite seq_app, fmap_app, !NoDup_cons, NoDup_app, elem_of_app.
  intros [Hnot [Hnd _]]. split; [|done]. intros Hin. apply Hnot. by left.
Qed.

Lemma distinctIds_reserved n i :
  distinct n → (i < n)%nat → objectIdSeq i ≠ localhostId.
Proof.
  unfold distinctIds. rewrite NoDup_cons. intros [Hnot _] Hi Heq.
  apply Hnot. rewrite <- Heq. apply list_elem_of_fmap. exists i.
  split; [done|]. apply elem_of_seq. lia.
Qed.

Lemma distinctIds_inj n i j :
  distinct n → (i < n)%nat → (j < n)%nat →
  objectIdSeq i = objectIdSeq j → i = j.
Proof.
  unfold distinctIds. rewrite NoDup_cons. intros [_ Hnd] Hi Hj Heq.
  apply (NoDup_lookup _ i j (objectIdSeq i) Hnd);
    rewrite list_lookup_fmap, lookup_seq_lt by done; simpl; congruence.
Qed.

Lemma hostIdFor_fresh n0 done s name :
  hostsLoaded n0 done s → name ∉ done →
  distinct (issuedAfterHost name s) →
  hosts s !! hostIdFor objectIdSeq name s = None.
Proof.
  intros (Hkeys & _ & _ & _) Hnew Hd.
  destruct (hosts s !! hostIdFor objectIdSeq name s) as [h|] eqn:Hh; [|done].
  exfalso. destruct (Hkeys _ _ Hh) as (Hid & Hin & Hby).
  revert Hd Hh Hid. unfold hostIdFor, issuedAfterHost, assignedBy in *.
  destruct (decide (name = "localhost")) as [->|Hn];
    destruct (decide (hostName h = "localhost")) as [Hl|Hl]; intros Hd Hh Hid.
  - apply Hnew. by rewrite <- Hl.
  - destruct Hby as (i & Hi & Hi'). rewrite Hid in Hi'.
    by apply (distinctIds_reserved _ i Hd); [lia|].
  - rewrite Hid in Hby. by apply (distinctIds_reserved _ (issued s) Hd); [lia|].
  - destruct Hby as (i & Hi & Hi'). rewrite Hid in Hi'.
    apply (distinctIds_inj _ _ _ Hd) in Hi'; lia.
Qed.

Lemma assignedBy_mono n0 s s' h :
  (issued s ≤ issued s')%nat → assignedBy n0 s h → assignedBy n0 s' h.
Proof.
  unfold assignedBy. destruct (decide (hostName h = "localhost")); [done|].
  intros Hle (i & Hi & ->). exists i. split; [lia|done].
Qed.

Lemma loadHost_hostsLoaded n0 done s name (p : Primitive) s' :
  hostsLoaded n0 done s → name ∉ done →
  loadHost GetTransports objectIdSeq s (name, p) = Ok s' →
  distinct (issued s') →
  hostsLoaded n0 (done ++ [name]) s'.
Proof.
  intros Hinv Hnew Hb Hd.
  apply loadHost_Ok in Hb as (t & plugin & tr & _ & _ & _ & ->).
  simpl in Hd. pose proof (hostIdFor_fresh n0 done s name Hinv Hnew Hd) as Hfresh.
  destruct Hinv as (Hkeys & Hall & Hsize & Hn0).
  assert (issued s ≤ issuedAfterHost name s)%nat as Hle.
  { unfold issuedAfterHost. case_decide; lia. }
  set (id := hostIdFor objectIdSeq name s) in *.
  set (s' := mkWorld _ _ _ _ _ _).
  assert (assignedBy n0 s' (mkHost id name t (Some tr))) as Hnewby.
  { unfold assignedBy, id, hostIdFor, s', issuedAfterHost. simpl.
    destruct (decide (name = "localhost")); [done|].
    exists (issued s). split; [lia|done]. }
  split_and!; simpl.
  - intros k h. rewrite lookup_insert. case_decide as Hk.
    + intros [= <-]. simpl. split_and!; [done| |done].
      apply elem_of_app. right. by apply list_elem_of_singleton.
    + intros Hh. destruct (Hkeys _ _ Hh) as (? & ? & ?). split_and!; [done| |].
      * apply elem_of_app. by left.
      * by apply (assignedBy_mono n0 s).
  - intros name' [Hin|Hin%list_elem_of_singleton]%elem_of_app.
    + destruct (Hall _ Hin) as (h & Hh & Hname). exists h. split; [|done].
      rewrite lookup_insert_ne; [done|]. intros Heq. rewrite <- Heq in Hh.
      by rewrite Hfresh in Hh.
    + subst name'. exists (mkHost id name t (Some tr)). simpl.
      by rewrite lookup_insert_eq.
  - rewrite map_size_insert_None by done. rewrite length_app, Hsize. simpl. lia.
  - lia.
Qed.

Lemma loadHost_issued s r s' :
  loadHost GetTransports objectIdSeq s r = Ok s' → (issued s ≤ issued s')%nat.
Proof.
  destruct r as [name p]. intros (? & ? & ? & _ & _ & _ & ->)%loadHost_Ok.
  simpl. unfold issuedAfterHost. case_decide; lia.
Qed.

Lemma hostLoop_issued records s s' :
  hostLoop records s = Ok s' → (issued s ≤ issued s')%nat.
Proof.
  intros Hloop.
  refine (forRange_invariant (fun s1 => (issued s ≤ issued s1)%nat)
            _ records s s' _ (Nat.le_refl _) Hloop).
  intros s1 r s2 _ H1 Hb%loadHost_issued. lia.
Qed.

Lemma monitorLoop_issued records s s' :
  monitorLoop records s = Ok s' → (issued s ≤ issued s')%nat.
Proof.
  intros Hloop.
  refine (forRange_invariant (fun s1 => (issued s ≤ issued s1)%nat)
            _ records s s' _ (Nat.le_refl _) Hloop).
  intros s1 r s2 _ H1 Hb.
  apply (loadMonitor_Ok _ _ _ rangeHosts_perm) in Hb
    as (? & ? & ? & ? & ? & _ & _ & _ & _ & ->). simpl. lia.
Qed.

Lemma hostLoop_hostsLoaded n0 records : ∀ done s s',
  NoDup (done ++ records.*1) →
  hostsLoaded n0 done s →
  hostLoop records s = Ok s' →
  distinct (issued s') →
  hostsLoaded n0 (done ++ records.*1) s'.
Proof.
  induction records as [|[name p] rest IH]; intros done s s' Hnd Hinv.
  - simpl. intros [= <-] _. by rewrite app_nil_r.
  - rewrite forRange_cons, fmap_cons. cbn [fst].
    destruct (loadHost GetTransports objectIdSeq s (name, p)) as [s1| |] eqn:Hb;
      [rewrite result_bind_Ok|done..].
    intros Hrest Hd. rewrite fmap_cons in Hnd. cbn [fst] in Hnd.
    replace (done ++ name :: rest.*1)%list with ((done ++ [name]) ++ rest.*1)%list
      in * by by rewrite <- app_assoc.
    apply (IH _ s1); [done| |done..].
    apply (loadHost_hostsLoaded n0 done s name p); [done| |done|].
    + apply NoDup_app in Hnd as [Hnd _]. apply NoDup_app in Hnd as (_ & Hdis & _).
      intros Hin. apply (Hdis _ Hin). by apply list_elem_of_singleton.
    + apply (distinctIds_mono _ (issued s')); [|done].
      by apply hostLoop_issued in Hrest.
Qed.

(** C1: when the constructor returns a store, and the identifier scheme has
    not repeated itself up to then, every host record has its host in the
    store; the host of the record named "localhost" has the reserved
    identifier of 24 hexadecimal zeros, the host of any other record has an
    identifier generated during this load, and no two different stored hosts
    have the same identifier: no record's host was overwritten. *)
Theorem loaded_host_identifiers config n0 w :
  NoDup (cfgHosts config).*1 →
  load config n0 = Ok w →
  distinct (issued w) →
  ObjectIdHex localhostHex = Some localhostId ∧
  (∀ name (p : Primitive), (name, p) ∈ cfgHosts config →
     ∃ h, hosts w !! hostId h = Some h ∧ hostName h = name ∧
       if decide (name = "localhost") then hostId h = localhostId
       else ∃ i, (n0 ≤ i < issued w)%nat ∧ hostId h = objectIdSeq i) ∧
  (∀ k1 h1 k2 h2, hosts w !! k1 = Some h1 → hosts w !! k2 = Some h2 →
     h1 ≠ h2 → hostId h1 ≠ hostId h2) ∧
  size (hosts w) = List.length (cfgHosts config).
Proof.
  intros Hnd (s1 & Hhosts & Hmons)%(load_Ok _ _ _ _) Hd.
  pose proof (monitorLoop_issued _ _ _ Hmons) as Hle.
  pose proof (monitorLoop_hosts _ _ _ rangeHosts_perm _ _ _ Hmons) as Heq.
  assert (hostsLoaded n0 (cfgHosts config).*1 s1) as (Hkeys & Hall & Hsize & Hn0).
  { apply (hostLoop_hostsLoaded n0 _ [] (emptyStore n0)); [done| |done|].
    - split_and!; simpl; [|by intros ? ?%elem_of_nil|done|done].
      intros k h. by rewrite lookup_empty.
    - by apply (distinctIds_mono _ (issued w)). }
  rewrite Heq. split_and!; [done| | |].
  - intros name p Hin.
    destruct (Hall name) as (h & Hh & Hname).
    { apply list_elem_of_fmap. by exists (name, p). }
    exists h. split_and!; [done..|].
    destruct (Hkeys _ _ Hh) as (_ & _ & Hby). unfold assignedBy in Hby.
    rewrite Hname in Hby. destruct (decide (name = "localhost")); [done|].
    destruct Hby as (i & Hi & Hi'). exists i. split; [lia|done].
  - intros k1 h1 k2 h2 H1 H2 Hne Hid.
    destruct (Hkeys _ _ H1) as (<- & _), (Hkeys _ _ H2) as (<- & _).
    rewrite Hid in H1. congruence.
  - by rewrite Hsize, length_fmap.
Qed.

End Identifiers.

(** ** The states after the load *)

Section Reachability.

Context {T A : Type}.
Variable GetTransports : gmap string (Plugin T).
Variable GetAgents : gmap string (Plugin A).
Variable objectIdSeq : nat -> ObjectId.
Variable rangeHosts : gmap ObjectId (Host T) -> list (ObjectId * Host T).
Hypothesis rangeHosts_perm : ∀ m, rangeHosts m ≡ₚ map_to_list m.

Implicit Types (s w : World T A) (h host : Host T) (m : Monitor A).

Local Abbreviation load :=
  (NewConfigurationStore GetTransports GetAgents objectIdSeq rangeHosts).
Local Abbreviation reach :=
  (reachable GetTransports GetAgents objectIdSeq rangeHosts).
Local Abbreviation issuedOnly := (hostsIssued objectIdSeq).

Lemma insert_keyed {V} (key : V → ObjectId) (mp : gmap ObjectId V) v :
  (∀ k x, mp !! k = Some x → key x = k) →
  ∀ k x, <[key v := v]> mp !! k = Some x → key x = k.
Proof.
  intros Hm k x. rewrite lookup_insert. case_decide; [by intros [= <-]|apply Hm].
Qed.

Lemma delete_keyed {V} (key : V → ObjectId) (mp : gmap ObjectId V) k0 :
  (∀ k x, mp !! k = Some x → key x = k) →
  ∀ k x, delete k0 mp !! k = Some x → key x = k.
Proof.
  intros Hm k x. rewrite lookup_delete. case_decide; [done|apply Hm].
Qed.

Lemma load_keyConsistent config n0 w :
  load config n0 = Ok w → keyConsistent w.
Proof.
  intros (s1 & Hhosts & Hmons)%load_Ok.
  refine (forRange_invariant keyConsistent _ _ _ _ _ _ Hmons).
  - intros s2 p s3 _ [Hh Hm] Hb.
    apply (loadMonitor_Ok _ _ _ rangeHosts_perm) in Hb
      as (? & ? & ? & ? & ? & _ & _ & _ & _ & ->).
    split; simpl; [done|]. by apply (insert_keyed monId _ (mkMonitor _ _ _ _)).
  - refine (forRange_invariant keyConsistent _ _ _ _ _ _ Hhosts).
    + intros s2 [name p] s3 _ [Hh Hm] Hb.
      apply loadHost_Ok in Hb as (? & ? & ? & _ & _ & _ & ->).
      split; simpl; [|done]. by apply (insert_keyed hostId _ (mkHost _ _ _ _)).
    + split; simpl; intros k x; by rewrite lookup_empty.
Qed.

Lemma step_keyConsistent w w' :
  step objectIdSeq rangeHosts w w' → keyConsistent w → keyConsistent w'.
Proof.
  intros Hstep [Hh Hm]. destruct Hstep as
    [w p|w id|w name|w id|w p|w p|w id|w h|w m|w p h|w p m]; simpl;
    try (split; assumption).
  - unfold AddHost. simpl. destruct (hostMem w !! p) as [h|]; simpl; [|done].
    split; simpl; [|done].
    by apply (insert_keyed hostId _ (setHostId _ h)).
  - unfold GetHost. destruct (ObjectIdHex id); [|done].
    by destruct (hosts w !! _).
  - unfold GetHostByName. by destruct (firstNamed _ _).
  - unfold DeleteHost. destruct (ObjectIdHex id); [|done].
    destruct (hosts w !! _); [|done]. split; simpl; [|done].
    by apply delete_keyed.
  - unfold AddMonitor. simpl. destruct (monMem w !! p) as [m|]; simpl; [|done].
    split; simpl; [done|].
    by apply (insert_keyed monId _ (setMonId _ m)).
  - unfold UpdateMonitor. destruct (monMem w !! p) as [m|]; simpl; [|done].
    split; simpl; [done|]. by apply insert_keyed.
  - unfold DeleteMonitor. destruct (ObjectIdHex id); [|done].
    destruct (monitors w !! _); [|done]. split; simpl; [done|].
    by apply delete_keyed.
Qed.

(** C10: in every state that the process reaches after a successful load,
    through calls of AddHost, DeleteHost, AddMonitor, UpdateMonitor and
    DeleteMonitor, of the read operations, and through what callers do with
    their own Host and Monitor variables, each entry of the hosts map and of
    the monitors map is stored under the key that equals its own Id. *)
Theorem reachable_keyConsistent w :
  reachable GetTransports GetAgents objectIdSeq rangeHosts w →
  keyConsistent w.
Proof.
  induction 1 as [config n0 w Hload|w w' _ IH Hstep].
  - by apply (load_keyConsistent config n0).
  - by apply (step_keyConsistent w).
Qed.

Lemma hostsIssued_mono w w' :
  hosts w' = hosts w → (issued w ≤ issued w')%nat →
  issuedOnly w → issuedOnly w'.
Proof.
  intros Heq Hle Hw k h. rewrite Heq. intros Hk.
  destruct (Hw _ _ Hk) as [->|(i & Hi & ->)]; [by left|right].
  exists i. split; [lia|done].
Qed.

Lemma load_hostsIssued config n0 w :
  load config n0 = Ok w → issuedOnly w.
Proof.
  intros (s1 & Hhosts & Hmons)%load_Ok.
  refine (forRange_invariant issuedOnly _ _ _ _ _ _ Hmons).
  - intros s2 p s3 _ H2 Hb.
    apply (loadMonitor_Ok _ _ _ rangeHosts_perm) in Hb
      as (? & ? & ? & ? & ? & _ & _ & _ & _ & ->).
    apply (hostsIssued_mono s2); simpl; [done|lia|done].
  - refine (forRange_invariant issuedOnly _ _ _ _ _ _ Hhosts).
    + intros s2 [name p] s3 _ H2 Hb.
      apply loadHost_Ok in Hb as (? & ? & ? & _ & _ & _ & ->).
      intros k h. simpl. unfold hostIdFor, issuedAfterHost.
      rewrite lookup_insert. case_decide as Hk.
      * intros _. subst k. case_decide; [by left|right].
        exists (issued s2). split; [lia|done].
      * intros Hh. destruct (H2 _ _ Hh) as [->|(i & Hi & ->)]; [by left|right].
        exists i. split; [case_decide; lia|done].
    + intros k h. simpl. by rewrite lookup_empty.
Qed.

Lemma step_hostsIssued w w' :
  step objectIdSeq rangeHosts w w' → issuedOnly w → issuedOnly w'.
Proof.
  intros Hstep Hw. destruct Hstep as
    [w p|w id|w name|w id|w p|w p|w id|w h|w m|w p h|w p m]; simpl;
    try (apply (hostsIssued_mono w); simpl; done).
  - unfold AddHost. simpl. destruct (hostMem w !! p) as [h|]; simpl.
    + intros k h0. simpl. rewrite lookup_insert. case_decide as Hk.
      * intros _. subst k. right. exists (issued w). split; [lia|done].
      * intros Hh. destruct (Hw _ _ Hh) as [->|(i & Hi & ->)]; [by left|right].
        exists i. split; [lia|done].
    + apply (hostsIssued_mono w); simpl; [done|lia|done].
  - unfold GetHost. destruct (ObjectIdHex id); [|done].
    destruct (hosts w !! _); [|done].
    apply (hostsIssued_mono w); simpl; done.
  - unfold GetHostByName. destruct (firstNamed _ _); [|done].
    apply (hostsIssued_mono w); simpl; done.
  - unfold DeleteHost. destruct (ObjectIdHex id); [|done].
    destruct (hosts w !! _); [|done]. simpl.
    intros k h0. simpl. rewrite lookup_delete. case_decide; [done|apply Hw].
  - unfold AddMonitor. simpl.
    destruct (monMem w !! p); simpl;
      apply (hostsIssued_mono w); simpl; (done || lia).
  - unfold UpdateMonitor. destruct (monMem w !! p); simpl; [|done].
    apply (hostsIssued_mono w); simpl; done.
  - unfold DeleteMonitor. destruct (ObjectIdHex id); [|done].
    destruct (monitors w !! _); [|done].
    apply (hostsIssued_mono w); simpl; done.
Qed.

(** What the store keeps true of its hosts, from the load on. *)
Lemma reachable_invariants w : reach w → keyConsistent w ∧ issuedOnly w.
Proof.
  induction 1 as [config n0 w Hload|w w' _ [IHk IHi] Hstep].
  - split; [by apply (load_keyConsistent config n0)
           |by apply (load_hostsIssued config n0)].
  - split; [by apply (step_keyConsistent w)|by apply (step_hostsIssued w)].
Qed.

(** C4: in a reachable state, with an identifier scheme that has not repeated
    itself, AddHost on a host variable, whatever Id the caller left in it,
    gives the host the next generated identifier, which no host of the store
    has, stores it under that identifier, and broadcasts one "hostadd" event,
    made when the hosts map already holds the host. *)
Theorem AddHost_fresh_identifier w p h :
  reach w →
  distinctIds objectIdSeq (S (issued w)) →
  hostMem w !! p = Some h →
  let id := objectIdSeq (issued w) in
  let h' := mkHost id (hostName h) (TransportId h) (Transport h) in
  (∀ k h0, hosts w !! k = Some h0 → k ≠ id ∧ hostId h0 ≠ id) ∧
  ∃ w', AddHost objectIdSeq w p = (Ok tt, w') ∧
    hosts w' = <[id := h']> (hosts w) ∧
    size (hosts w') = S (size (hosts w)) ∧
    hostMem w' !! p = Some h' ∧
    ∃ e, published w' = (published w ++ [e])%list ∧
      evName e = "hostadd" ∧
      evPayload e = HostPayload p h' ∧
      evHosts e !! id = Some h' ∧
      evHosts e = hosts w'.
Proof.
  intros Hreach Hd Hp id h'.
  destruct (reachable_invariants w Hreach) as [[Hkeys _] Hissued].
  assert (∀ k h0, hosts w !! k = Some h0 → k ≠ id) as Hfresh.
  { intros k h0 Hk Heq. destruct (Hissued _ _ Hk) as [Hz|(i & Hi & Hi')].
    - apply (distinctIds_reserved objectIdSeq _ (issued w) Hd); [lia|].
      unfold id in Heq. congruence.
    - assert (i = issued w); [|lia].
      apply (distinctIds_inj objectIdSeq _ _ _ Hd); [lia..|].
      unfold id in Heq. congruence. }
  split.
  - intros k h0 Hk. split; [by eapply Hfresh|].
    rewrite (Hkeys _ _ Hk). by eapply Hfresh.
  - unfold AddHost. simpl. rewrite Hp. eexists. split; [reflexivity|]. simpl.
    split_and!; [done| | |].
    + apply map_size_insert_None.
      destruct (hosts w !! objectIdSeq (issued w)) as [h0|] eqn:Hk; [|done].
      by destruct (Hfresh _ _ Hk).
    + apply list_lookup_insert_eq. by eapply lookup_lt_Some.
    + eexists. split; [reflexivity|]. simpl. split_and!; try done.
      apply lookup_insert_eq.
Qed.


End Reachability.

(** ** Concrete runs *)

Lemma Demo_order_perm m : Demo.order m ≡ₚ map_to_list m.
Proof. reflexivity. Defined.

Lemma Demo_load_config : Demo.load Demo.config = Ok Demo.loaded.
Proof. vm_compute. reflexivity. Defined.

Lemma Demo_reachable_loaded :
  reachable Demo.transports Demo.agents Demo.ids Demo.order Demo.loaded.
Proof.
  apply (reachable_load _ _ _ _ Demo.config 0%nat). exact Demo_load_config.
Defined.


(** C1 on the demo configuration. *)
Lemma loaded_host_identifiers_witness :
  NoDup (cfgHosts Demo.config).*1 ∧
  Demo.load Demo.config = Ok Demo.loaded ∧
  distinctIds Demo.ids (issued Demo.loaded) ∧
  (∃ h, hosts Demo.loaded !! hostId h = Some h ∧ hostName h = "localhost" ∧
        hostId h = localhostId) ∧
  (∃ h, hosts Demo.loaded !! hostId h = Some h ∧ hostName h = "web" ∧
        ∃ i, (0 ≤ i < issued Demo.loaded)%nat ∧ hostId h = Demo.ids i) ∧
  size (hosts Demo.loaded) = 2%nat.
Proof.
  assert (NoDup (cfgHosts Demo.config).*1) as Hnd.
  { apply (bool_decide_unpack _). vm_compute. exact I. }
  assert (distinctIds Demo.ids (issued Demo.loaded)) as Hd.
  { unfold distinctIds. apply (bool_decide_unpack _). vm_compute. exact I. }
  pose proof (loaded_host_identifiers Demo.transports Demo.agents Demo.ids
                Demo.order Demo_order_perm Demo.config 0%nat Demo.loaded
                Hnd Demo_load_config Hd) as (_ & Hrec & _ & Hsize).
  split; [exact Hnd|]. split; [exact Demo_load_config|]. split; [exact Hd|].
  split; [|split; [|exact Hsize]].
  - destruct (Hrec "localhost" Demo.localRecord) as (h & Hh & Hn & Hid).
    { apply list_elem_of_here. }
    exists h. split; [exact Hh|split; [exact Hn|exact Hid]].
  - destruct (Hrec "web" Demo.sshRecord) as (h & Hh & Hn & Hid).
    { apply list_elem_of_further, list_elem_of_here. }
    exists h. split; [exact Hh|split; [exact Hn|exact Hid]].
Defined.

(** C2 as the specification has it fails: a host record that does not decode,
    met before the record with the unregistered transport, makes the
    constructor return the decode error. *)
Lemma unknown_transport_not_always_reported :
  ¬ unknownTransportReported Demo.transports Demo.agents Demo.ids Demo.order.
Proof.
  intros Hspec.
  destruct (Hspec Demo.brokenConfig 0%nat "old" Demo.telnetRecord "telnet")
    as (t' & _ & Hload).
  - apply list_elem_of_further, list_elem_of_here.
  - vm_compute. reflexivity.
  - vm_compute. reflexivity.
  - assert (NewConfigurationStore Demo.transports Demo.agents Demo.ids Demo.order
              Demo.brokenConfig 0 = Err (DecodeError "transport")) as Hrun.
    { vm_compute. reflexivity. }
    rewrite Hrun in Hload. discriminate Hload.
Qed.

(** C2, as amended, on a configuration whose second host record selects the
    unregistered transport telnet. *)
Lemma unknown_transport_aborts_load_witness :
  ("old", Demo.telnetRecord) ∈ cfgHosts Demo.telnetConfig ∧
  selectorOf (T := string) Demo.telnetRecord = Some "telnet" ∧
  Demo.transports !! "telnet" = None ∧
  (∀ w, Demo.load Demo.telnetConfig ≠ Ok w) ∧
  Demo.load Demo.telnetConfig = Err (Errorf "unknown transport 'telnet'").
Proof.
  assert (("old", Demo.telnetRecord) ∈ cfgHosts Demo.telnetConfig) as Hin.
  { apply list_elem_of_further, list_elem_of_here. }
  assert (selectorOf (T := string) Demo.telnetRecord = Some "telnet") as Hsel.
  { vm_compute. reflexivity. }
  assert (Demo.transports !! "telnet" = None) as Hreg.
  { vm_compute. reflexivity. }
  destruct (unknown_transport_aborts_load Demo.transports Demo.agents Demo.ids
              Demo.order Demo.telnetConfig 0%nat "old" Demo.telnetRecord "telnet"
              Hin Hsel Hreg) as [Hnever Hfirst].
  split; [exact Hin|]. split; [exact Hsel|]. split; [exact Hreg|].
  split; [exact Hnever|].
  assert (∃ s, forRange (loadHost Demo.transports Demo.ids)
                 [("localhost", Demo.localRecord)]
                 (mkWorld (T := string) (A := unit) ∅ ∅ [] [] [] 0%nat)
               = Ok s) as [s Hpre].
  { eexists. vm_compute. reflexivity. }
  exact (Hfirst [("localhost", Demo.localRecord)] [] s eq_refl Hpre).
Defined.


(** C6 as the specification has it fails: the demo record asks for thirty
    seconds and is loaded with ten. *)
Lemma requested_interval_not_loaded :
  ¬ intervalsAsRequested Demo.transports Demo.agents Demo.ids Demo.order.
Proof.
  intros Hspec.
  destruct (Hspec Demo.config 0%nat Demo.loaded Demo.cpuRecord (second * 30))
    as (k & m & Hk & Hm).
  - exact Demo_load_config.
  - apply list_elem_of_here.
  - vm_compute. reflexivity.
  - assert (map_Forall (fun _ m => Interval m = second * 10)
              (monitors Demo.loaded)) as Hall.
    { apply map_Forall_to_list, (bool_decide_unpack _). vm_compute. exact I. }
    rewrite (Hall k m Hk) in Hm. discriminate Hm.
Qed.

(** C6, as amended, on the demo configuration, whose monitor record asks for
    thirty seconds. *)
Lemma loaded_interval_is_ten_seconds_witness :
  Demo.load Demo.config = Ok Demo.loaded ∧
  requestedInterval Demo.cpuRecord = Some (second * 30) ∧
  size (monitors Demo.loaded) = 1%nat ∧
  ∀ k m, monitors Demo.loaded !! k = Some m → Interval m = second * 10.
Proof.
  split; [exact Demo_load_config|].
  split; [vm_compute; reflexivity|]. split; [vm_compute; reflexivity|].
  exact (loaded_interval_is_ten_seconds Demo.transports Demo.agents Demo.ids
           Demo.order Demo_order_perm Demo.config 0%nat Demo.loaded
           Demo_load_config).
Defined.



(** C8 on the loaded demo store and a Monitor variable of the caller, whose
    id the store does not have. *)
Lemma UpdateMonitor_upsert_witness :
  let w := (allocMonitor Demo.newMonitor Demo.loaded).2 in
  monMem w !! 0%nat = Some Demo.newMonitor ∧
  ∃ w', UpdateMonitor w 0 = (Ok tt, w') ∧
    monitors w' !! "monitor-0001" = Some Demo.newMonitor ∧
    size (monitors w') = 2%nat.
Proof.
  intros w.
  assert (monMem w !! 0%nat = Some Demo.newMonitor) as Hp.
  { vm_compute. reflexivity. }
  split; [exact Hp|].
  destruct (UpdateMonitor_upsert w 0%nat Demo.newMonitor Hp)
    as (_ & w' & Hrun & _ & Hthere & _ & _ & Hnew & _).
  exists w'. split; [exact Hrun|]. split; [exact Hthere|].
  rewrite Hnew; vm_compute; reflexivity.
Defined.


(** C10 on the state after the caller has declared a Host variable and
    passed it to AddHost. *)
Lemma reachable_keyConsistent_witness :
  let w := (AddHost Demo.ids (allocHost Demo.newHost Demo.loaded).2 1).2 in
  reachable Demo.transports Demo.agents Demo.ids Demo.order w ∧
  keyConsistent w ∧ size (hosts w) = 3%nat.
Proof.
  intros w.
  assert (reachable Demo.transports Demo.agents Demo.ids Demo.order w) as Hreach.
  { apply (reachable_step _ _ _ _ (allocHost Demo.newHost Demo.loaded).2);
      [|apply step_AddHost].
    apply (reachable_step _ _ _ _ Demo.loaded);
      [exact Demo_reachable_loaded|apply step_newHost]. }
  split; [exact Hreach|].
  split; [|vm_compute; reflexivity].
  exact (reachable_keyConsistent Demo.transports Demo.agents Demo.ids Demo.order
           Demo_order_perm w Hreach).
Defined.

(** C4 on the loaded demo store and a Host variable in which the caller has
    put an Id of its own. *)
Lemma AddHost_fresh_identifier_witness :
  let w := (allocHost Demo.newHost Demo.loaded).2 in
  reachable Demo.transports Demo.agents Demo.ids Demo.order w ∧
  distinctIds Demo.ids (S (issued w)) ∧
  hostMem w !! 1%nat = Some Demo.newHost ∧
  hostId Demo.newHost ≠ Demo.ids (issued w) ∧
  ∃ w', AddHost Demo.ids w 1 = (Ok tt, w') ∧
    hosts w !! Demo.ids (issued w) = None ∧
    (∃ h, hosts w' !! Demo.ids (issued w) = Some h ∧ hostName h = "backup") ∧
    size (hosts w') = S (size (hosts w)) ∧
    List.length (published w') = S (List.length (published w)).
Proof.
  intros w.
  assert (reachable Demo.transports Demo.agents Demo.ids Demo.order w) as Hreach.
  { apply (reachable_step _ _ _ _ Demo.loaded);
      [exact Demo_reachable_loaded|apply step_newHost]. }
  assert (distinctIds Demo.ids (S (issued w))) as Hd.
  { unfold distinctIds. apply (bool_decide_unpack _). vm_compute. exact I. }
  assert (hostMem w !! 1%nat = Some Demo.newHost) as Hp.
  { vm_compute. reflexivity. }
  split; [exact Hreach|]. split; [exact Hd|]. split; [exact Hp|].
  split; [apply (bool_decide_unpack _); vm_compute; exact I|].
  destruct (AddHost_fresh_identifier Demo.transports Demo.agents Demo.ids
              Demo.order Demo_order_perm w 1%nat Demo.newHost Hreach Hd Hp)
    as (Hfresh & w' & Hrun & Hhosts & Hsize & _ & e & Hpub & _).
  exists w'. split; [exact Hrun|]. split; [vm_compute; reflexivity|].
  split; [|split; [exact Hsize|]].
  - eexists. split; [rewrite Hhosts; apply lookup_insert_eq|reflexivity].
  - rewrite Hpub, length_app. simpl. apply Nat.add_1_r.
Defined.

(** ** Listing and searching *)

Section ReadOperations.

Context {T A : Type}.
Variable rangeHosts : gmap ObjectId (Host T) -> list (ObjectId * Host T).
Variable rangeMonitors : gmap ObjectId (Monitor A) -> list (ObjectId * Monitor A).
Hypothesis rangeHosts_perm : ∀ m, rangeHosts m ≡ₚ map_to_list m.
Hypothesis rangeMonitors_perm : ∀ m, rangeMonitors m ≡ₚ map_to_list m.

Implicit Types (w : World T A) (h host : Host T) (m : Monitor A).

(** A slice that is as long as the map has entries is filled from its first
    to its last element, and no index is out of range. *)
Lemma fillSlice_filled {K V} (entries : list (K * V)) : ∀ (done rest : list V),
  List.length rest = List.length entries →
  fillSlice entries (List.length done) (done ++ rest)%list
    = Ok (done ++ entries.*2)%list.
Proof.
  induction entries as [|[k x] entries IH]; intros done rest Hlen.
  - destruct rest; [|done]. by rewrite fmap_nil.
  - destruct rest as [|y rest]; [done|]. cbn [fillSlice].
    rewrite decide_True by (rewrite length_app; simpl; lia).
    replace (<[List.length done := x]> (done ++ y :: rest)%list)
      with ((done ++ [x]) ++ rest)%list.
    + replace (S (List.length done)) with (List.length (done ++ [x])%list)
        by (rewrite length_app; simpl; lia).
      rewrite IH by (simpl in Hlen; lia).
      by rewrite fmap_cons, <- app_assoc.
    + rewrite <- app_assoc. simpl.
      by rewrite insert_app_r_alt, Nat.sub_diag by done.
Qed.

Lemma range_length {V} (range : gmap ObjectId V → list (ObjectId * V)) mp :
  (∀ mp', range mp' ≡ₚ map_to_list mp') → List.length (range mp) = size mp.
Proof. intros Hperm. by rewrite (Hperm mp), length_map_to_list. Qed.

Lemma range_values {V} (range : gmap ObjectId V → list (ObjectId * V)) mp x :
  (∀ mp', range mp' ≡ₚ map_to_list mp') →
  x ∈ (range mp).*2 ↔ ∃ k, mp !! k = Some x.
Proof.
  intros Hperm. rewrite list_elem_of_fmap. split.
  - intros ([k y] & -> & Hin). exists k. rewrite (Hperm mp) in Hin.
    by apply elem_of_map_to_list in Hin.
  - intros [k Hk]. exists (k, x). split; [done|].
    rewrite (Hperm mp). by apply elem_of_map_to_list.
Qed.

(** X1: GetAllHosts returns nil as its error and a slice that holds every host of
    the store once, nothing else, and changes nothing: the slice is as long
    as the map has entries, it is the hosts in the order the loop met them,
    and no element is left as the empty Host the slice was made of. *)
Theorem GetAllHosts_lists_every_host w :
  ∃ l, GetAllHosts rangeHosts w = (Ok l, w) ∧
    l = (rangeHosts (hosts w)).*2 ∧
    l ≡ₚ (map_to_list (hosts w)).*2 ∧
    List.length l = size (hosts w) ∧
    ∀ h, h ∈ l ↔ ∃ k, hosts w !! k = Some h.
Proof.
  exists (rangeHosts (hosts w)).*2. unfold GetAllHosts.
  pose proof (fillSlice_filled (rangeHosts (hosts w)) []
                (replicate (size (hosts w)) zeroHost)) as Hfill.
  simpl in Hfill. rewrite Hfill.
  - split_and!; [done..| | |].
    + by rewrite (rangeHosts_perm (hosts w)).
    + by rewrite length_fmap, (range_length rangeHosts).
    + intros h. by apply range_values.
  - by rewrite length_replicate, (range_length rangeHosts).
Qed.

(** X2: GetAllMonitors returns nil as its error and a slice that holds every
    monitor of the store once, nothing else, and changes nothing. *)
Theorem GetAllMonitors_lists_every_monitor w :
  ∃ l, GetAllMonitors rangeMonitors w = (Ok l, w) ∧
    l = (rangeMonitors (monitors w)).*2 ∧
    l ≡ₚ (map_to_list (monitors w)).*2 ∧
    List.length l = size (monitors w) ∧
    ∀ m, m ∈ l ↔ ∃ k, monitors w !! k = Some m.
Proof.
  exists (rangeMonitors (monitors w)).*2. unfold GetAllMonitors.
  pose proof (fillSlice_filled (rangeMonitors (monitors w)) []
                (replicate (size (monitors w)) zeroMonitor)) as Hfill.
  simpl in Hfill. rewrite Hfill.
  - split_and!; [done..| | |].
    + by rewrite (rangeMonitors_perm (monitors w)).
    + by rewrite length_fmap, (range_length rangeMonitors).
    + intros m. by apply range_values.
  - by rewrite length_replicate, (range_length rangeMonitors).
Qed.

Lemma firstWithId_Some id k (l : list (ObjectId * Monitor A)) m :
  ObjectIdHex id = Some k →
  firstWithId id l = Ok (Some m) → monId m = k ∧ ∃ k', (k', m) ∈ l.
Proof.
  intros Hk. induction l as [|[k0 m0] l IH]; simpl; [done|]. rewrite Hk.
  destruct (decide (monId m0 = k)) as [Hm|Hm].
  - intros [= <-]. split; [done|]. exists k0. left.
  - intros Hf. destruct (IH Hf) as [? [k' Hk']]. split; [done|].
    exists k'. by right.
Qed.

Lemma firstWithId_None id k (l : list (ObjectId * Monitor A)) :
  ObjectIdHex id = Some k →
  (∀ k' m, (k', m) ∈ l → monId m ≠ k) → firstWithId id l = Ok None.
Proof.
  intros Hk. induction l as [|[k0 m0] l IH]; simpl; [done|]. rewrite Hk.
  intros Hall. rewrite decide_False by (apply (Hall k0); left).
  apply IH. intros k' m Hin. apply (Hall k'). by right.
Qed.

Lemma firstWithId_finds id k (l : list (ObjectId * Monitor A)) k' m :
  ObjectIdHex id = Some k → (k', m) ∈ l → monId m = k →
  ∃ m', firstWithId id l = Ok (Some m').
Proof.
  intros Hk Hin Hid. induction l as [|[k0 m0] l IH]; simpl.
  - by apply elem_of_nil in Hin.
  - rewrite Hk. destruct (decide (monId m0 = k)); [by eexists|].
    apply IH. by apply elem_of_cons in Hin as [[= <- <-]|Hin].
Qed.

Lemma elem_of_rangeMonitors (ms : gmap ObjectId (Monitor A)) k m :
  (k, m) ∈ rangeMonitors ms ↔ ms !! k = Some m.
Proof. rewrite (rangeMonitors_perm ms). apply elem_of_map_to_list. Qed.

(** X3: GetMonitor, given a well-formed id and a store whose monitors sit under
    their own ids: the monitor stored under the id comes back as a new
    Monitor variable, whatever the order of the loop; an id of no monitor
    gives ErrMonitorNotFound and changes nothing. *)
Theorem GetMonitor_finds_by_id w id k :
  ObjectIdHex id = Some k →
  (∀ k' m, monitors w !! k' = Some m → monId m = k') →
  GetMonitor rangeMonitors w id =
    match monitors w !! k with
    | Some m =>
        (Ok (List.length (monMem w)), setMonMem (monMem w ++ [m])%list w)
    | None => (Err ErrMonitorNotFound, w)
    end.
Proof.
  intros Hk Hkeys. unfold GetMonitor.
  destruct (monitors w !! k) as [m|] eqn:Hm.
  - destruct (firstWithId_finds id k (rangeMonitors (monitors w)) k m Hk)
      as [m' Hf]; [by apply elem_of_rangeMonitors|by apply Hkeys|].
    rewrite Hf.
    apply (firstWithId_Some _ _ _ _ Hk) in Hf as [Hid [k' Hin]].
    apply elem_of_rangeMonitors in Hin.
    rewrite <- (Hkeys _ _ Hin), Hid, Hm in Hin. by injection Hin as ->.
  - rewrite (firstWithId_None id k); [done..|].
    intros k' m Hin%elem_of_rangeMonitors Hid.
    rewrite <- (Hkeys _ _ Hin), Hid, Hm in Hin. done.
Qed.

(** X4: GetMonitor with an id that is no identifier: the conversion that panics
    is made inside the loop, so the call panics when the store has a monitor,
    and returns ErrMonitorNotFound, without a panic, when it has none. *)
Theorem GetMonitor_malformed_id w id :
  ObjectIdHex id = None →
  GetMonitor rangeMonitors w id =
    if decide (monitors w = ∅) then (Err ErrMonitorNotFound, w)
    else (Panic invalidObjectIdHex, w).
Proof.
  intros Hid. unfold GetMonitor.
  pose proof (rangeMonitors_perm (monitors w)) as Hperm.
  destruct (rangeMonitors (monitors w)) as [|[k0 m0] l] eqn:Hl; simpl.
  - apply Permutation_nil_l in Hperm. symmetry in Hperm.
    apply map_to_list_empty_iff in Hperm. by rewrite decide_True.
  - rewrite Hid. rewrite decide_False; [done|]. intros Hempty.
    rewrite Hempty, map_to_list_empty in Hperm.
    by apply Permutation_nil_r in Hperm.
Qed.

(** X5: GetHost, given a well-formed id: for the id of a stored host it returns a
    pointer to a new Host variable that holds the host, and what the caller
    then assigns to the variable changes neither the store nor what a later
    GetHost returns; for the id of no host it returns ErrorInvalidId, which
    is not the error DeleteHost returns for the same id, and changes
    nothing. *)
Theorem GetHost_returns_copy w id k :
  ObjectIdHex id = Some k →
  (hosts w !! k = None →
     GetHost w id = (Err ErrorInvalidId, w) ∧
     DeleteHost w id = (Err ErrHostNotFound, w)) ∧
  (∀ host, hosts w !! k = Some host →
     ∃ p w1, GetHost w id = (Ok p, w1) ∧
       hostMem w !! p = None ∧ hostMem w1 !! p = Some host ∧
       untouched w w1 ∧
       ∀ h', let w2 := setHostMem (<[p := h']> (hostMem w1)) w1 in
         hosts w2 = hosts w ∧
         ∃ p' w3, GetHost w2 id = (Ok p', w3) ∧ p' ≠ p ∧
           hostMem w3 !! p' = Some host).
Proof.
  intros Hk. split.
  - intros Hnone. unfold GetHost, DeleteHost. by rewrite Hk, Hnone.
  - intros host Hh. unfold GetHost. rewrite Hk, Hh. simpl.
    eexists _, _. split; [reflexivity|]. simpl. split_and!.
    + by apply lookup_ge_None.
    + by rewrite lookup_app_r, Nat.sub_diag.
    + unfold untouched. simpl. split_and!; try done. by apply prefix_app_r.
    + intros h'. simpl. split; [done|]. rewrite Hh. simpl.
      eexists _, _. split; [reflexivity|]. simpl.
      rewrite length_insert, length_app. simpl. split; [lia|].
      rewrite lookup_app_r; rewrite length_insert, length_app; simpl; [|lia].
      by rewrite Nat.sub_diag.
Qed.

(** X6: The five operations that read broadcast nothing, draw no identifier, and
    leave both maps and every existing variable as they were; the two that
    list return the state itself. *)
Theorem reads_change_nothing w id name :
  untouched w (GetHost w id).2 ∧
  untouched w (GetHostByName rangeHosts w name).2 ∧
  untouched w (GetMonitor rangeMonitors w id).2 ∧
  (GetAllHosts rangeHosts w).2 = w ∧
  (GetAllMonitors rangeMonitors w).2 = w.
Proof.
  assert (untouched w w) as Hsame by (by unfold untouched).
  assert (∀ h, untouched w (setHostMem (hostMem w ++ [h])%list w)) as Hhost.
  { intros h. unfold untouched. simpl. split_and!; try done. by apply prefix_app_r. }
  assert (∀ m, untouched w (setMonMem (monMem w ++ [m])%list w)) as Hmon.
  { intros m. unfold untouched. simpl. split_and!; try done. by apply prefix_app_r. }
  split_and!; [| | |done..].
  - unfold GetHost. destruct (ObjectIdHex id); [|done].
    destruct (hosts w !! _); [apply Hhost|done].
  - unfold GetHostByName. destruct (firstNamed _ _); [apply Hhost|done].
  - unfold GetMonitor. destruct (firstWithId _ _) as [[m|]| |]; [apply Hmon|done..].
Qed.

Lemma hexDecodeString_length_aux s :
  (∀ d, hexDecodeString s = Some d →
        String.length s = (2 * String.length d)%nat) ∧
  (∀ a d, hexDecodeString (String a s) = Some d →
          String.length (String a s) = (2 * String.length d)%nat).
Proof.
  induction s as [|b s [IH1 IH2]].
  - split; [by intros d [= <-]|done].
  - split; [apply IH2|]. intros a d. cbn [hexDecodeString].
    destruct (fromHexChar a); [|done]. destruct (fromHexChar b); [|done].
    destruct (hexDecodeString s) as [d'|]; [|done].
    intros [= <-]. simpl. rewrite (IH1 d' eq_refl). lia.
Qed.

(** What ObjectIdHex accepts has 24 characters and gives 12 bytes. *)
Lemma ObjectIdHex_length id k :
  ObjectIdHex id = Some k →
  String.length id = 24%nat ∧ String.length k = 12%nat.
Proof.
  unfold ObjectIdHex. destruct (hexDecodeString id) as [d|] eqn:Hd; [|done].
  destruct (Nat.eqb (String.length d) 12) eqn:Hlen; [|done].
  intros [= <-]. apply Nat.eqb_eq in Hlen.
  apply hexDecodeString_length_aux in Hd. lia.
Qed.

(** X7: An id that does not have 24 characters makes GetHost, DeleteHost and
    DeleteMonitor panic, before they have looked at the store or changed
    anything. *)
Theorem id_of_wrong_length_panics w id :
  String.length id ≠ 24%nat →
  GetHost w id = (Panic invalidObjectIdHex, w) ∧
  DeleteHost w id = (Panic invalidObjectIdHex, w) ∧
  DeleteMonitor w id = (Panic invalidObjectIdHex, w).
Proof.
  intros Hlen.
  assert (ObjectIdHex id = None) as Hnone.
  { destruct (ObjectIdHex id) as [k|] eqn:Hk; [|done].
    by apply ObjectIdHex_length in Hk as [? _]. }
  unfold GetHost, DeleteHost, DeleteMonitor. by rewrite Hnone.
Qed.

End ReadOperations.

(** ** Calls in sequence *)

Section Sequences.

Context {T A : Type}.
Variable GetTransports : gmap string (Plugin T).
Variable GetAgents : gmap string (Plugin A).
Variable objectIdSeq : nat -> ObjectId.
Variable rangeHosts : gmap ObjectId (Host T) -> list (ObjectId * Host T).
Hypothesis rangeHosts_perm : ∀ m, rangeHosts m ≡ₚ map_to_list m.

Implicit Types (w : World T A) (h host : Host T) (m : Monitor A).

Local Abbreviation reach :=
  (reachable GetTransports GetAgents objectIdSeq rangeHosts).

(** X8: AddMonitor, given a Monitor variable, returns nil without looking at the
    hosts: it puts the next generated identifier into the variable, stores
    the monitor under it, in place of a monitor that was stored under that
    identifier if there was one, and broadcasts one "monadd" event, made when
    the monitors map already holds the monitor. *)
Theorem AddMonitor_stores_under_new_id w p m :
  monMem w !! p = Some m →
  let id := objectIdSeq (issued w) in
  let m' := mkMonitor id (HostId m) (Interval m) (Agent m) in
  ∃ w', AddMonitor objectIdSeq w p = (Ok tt, w') ∧
    monitors w' = <[id := m']> (monitors w) ∧
    (monitors w !! id = None → size (monitors w') = S (size (monitors w))) ∧
    (is_Some (monitors w !! id) → size (monitors w') = size (monitors w)) ∧
    monMem w' !! p = Some m' ∧
    hosts w' = hosts w ∧
    issued w' = S (issued w) ∧
    ∃ e, published w' = (published w ++ [e])%list ∧
      evName e = "monadd" ∧
      evPayload e = MonitorPayload p m' ∧
      evMonitors e = monitors w'.
Proof.
  intros Hp id m'. unfold AddMonitor. simpl. rewrite Hp.
  eexists. split; [reflexivity|]. simpl. split_and!; try done.
  - intros Hnone. by apply map_size_insert_None.
  - intros Hsome. by apply map_size_insert_Some.
  - apply list_lookup_insert_eq. by eapply lookup_lt_Some.
  - by eexists.
Qed.

(** X9: DeleteMonitor with the well-formed id of no stored monitor returns
    ErrMonitorNotFound and leaves the whole state as it was; with the id of a
    stored monitor it removes that entry and no other, leaves the hosts
    alone, and broadcasts one "mondelete" event that carries the removed
    monitor. *)
Theorem DeleteMonitor_spec w id k :
  ObjectIdHex id = Some k →
  (monitors w !! k = None → DeleteMonitor w id = (Err ErrMonitorNotFound, w)) ∧
  (∀ m, monitors w !! k = Some m →
     ∃ w', DeleteMonitor w id = (Ok tt, w') ∧
       monitors w' = delete k (monitors w) ∧
       (∀ k', k' ≠ k → monitors w' !! k' = monitors w !! k') ∧
       S (size (monitors w')) = size (monitors w) ∧
       hosts w' = hosts w ∧
       ∃ p, monMem w !! p = None ∧ monMem w' !! p = Some m ∧
         published w' =
           (published w ++
              [mkEvent "mondelete" (MonitorPayload p m)
                       (hosts w) (delete k (monitors w))])%list).
Proof.
  intros Hk. unfold DeleteMonitor. rewrite Hk. split.
  - by intros ->.
  - intros m Hm. rewrite Hm. eexists. split; [reflexivity|]. simpl.
    split_and!; try done.
    + intros k' Hne. by apply lookup_delete_ne.
    + rewrite map_size_delete, Hm. simpl.
      assert (size (monitors w) ≠ 0%nat); [|lia].
      intros Hz. apply map_size_empty_inv in Hz. rewrite Hz in Hm.
      by rewrite lookup_empty in Hm.
    + exists (List.length (monMem w)). split_and!; [|by rewrite lookup_app_r, Nat.sub_diag|done].
      by apply lookup_ge_None.
Qed.

(** X10: After AddHost, GetHost with the new identifier in hexadecimal returns a
    pointer to a new variable, not the caller's, that holds the host as it
    was stored: with the generated Id and the other fields the caller gave. *)
Theorem AddHost_then_GetHost w p h id :
  hostMem w !! p = Some h →
  ObjectIdHex id = Some (objectIdSeq (issued w)) →
  let stored := mkHost (objectIdSeq (issued w)) (hostName h) (TransportId h)
                       (Transport h) in
  ∃ w1 q w2,
    AddHost objectIdSeq w p = (Ok tt, w1) ∧
    GetHost w1 id = (Ok q, w2) ∧
    q ≠ p ∧
    hostMem w2 !! q = Some stored ∧
    hostMem w2 !! p = Some stored ∧
    hosts w2 = hosts w1.
Proof.
  intros Hp Hid stored. unfold AddHost. simpl. rewrite Hp.
  eexists _, _, _. split; [reflexivity|].
  unfold GetHost. rewrite Hid. simpl. rewrite lookup_insert_eq. simpl.
  split; [reflexivity|]. rewrite length_insert.
  pose proof (lookup_lt_Some _ _ _ Hp) as Hlt. split_and!; simpl.
  - lia.
  - by rewrite lookup_app_r, length_insert, Nat.sub_diag by (by rewrite length_insert).
  - rewrite lookup_app_l by (by rewrite length_insert).
    by apply list_lookup_insert_eq.
  - done.
Qed.

Lemma next_identifier_unused w :
  reach w → distinctIds objectIdSeq (S (issued w)) →
  hosts w !! objectIdSeq (issued w) = None.
Proof.
  intros Hreach Hd.
  destruct (reachable_invariants _ _ _ _ rangeHosts_perm w Hreach) as [_ Hissued].
  destruct (hosts w !! objectIdSeq (issued w)) as [h0|] eqn:Hk; [|done].
  exfalso. destruct (Hissued _ _ Hk) as [Hz|(i & Hi & Hi')].
  - by apply (distinctIds_reserved objectIdSeq _ (issued w) Hd); [lia|].
  - assert (i = issued w); [|lia].
    apply (distinctIds_inj objectIdSeq _ _ _ Hd); [lia..|done].
Qed.

(** X11: In a reachable state, with an identifier scheme that has not repeated
    itself, AddHost followed by DeleteHost of the new identifier gives back
    the hosts map and the monitors map as they were before the two calls,
    and the Broadcaster has been told "hostadd" and then "hostdelete". *)
Theorem AddHost_then_DeleteHost w p h id :
  reach w →
  distinctIds objectIdSeq (S (issued w)) →
  hostMem w !! p = Some h →
  ObjectIdHex id = Some (objectIdSeq (issued w)) →
  ∃ w1 w2,
    AddHost objectIdSeq w p = (Ok tt, w1) ∧
    DeleteHost w1 id = (Ok tt, w2) ∧
    hosts w2 = hosts w ∧ monitors w2 = monitors w ∧
    evName <$> published w2
      = ((evName <$> published w) ++ ["hostadd"; "hostdelete"])%list.
Proof.
  intros Hreach Hd Hp Hid.
  pose proof (next_identifier_unused w Hreach Hd) as Hfresh.
  unfold AddHost. simpl. rewrite Hp.
  eexists _, _. split; [reflexivity|].
  unfold DeleteHost. rewrite Hid. simpl. rewrite lookup_insert_eq. simpl.
  split; [reflexivity|]. simpl. split_and!.
  - by apply delete_insert_id.
  - done.
  - by rewrite !fmap_app, <- app_assoc.
Qed.

(** X12: A host can be deleted once: after a DeleteHost that went through, a
    second DeleteHost of the same id returns ErrHostNotFound and changes
    nothing, and GetHost of that id returns ErrorInvalidId. *)
Theorem DeleteHost_twice w id k host :
  ObjectIdHex id = Some k →
  hosts w !! k = Some host →
  ∃ w1, DeleteHost w id = (Ok tt, w1) ∧
    DeleteHost w1 id = (Err ErrHostNotFound, w1) ∧
    GetHost w1 id = (Err ErrorInvalidId, w1).
Proof.
  intros Hk Hh. unfold DeleteHost at 1. rewrite Hk, Hh.
  eexists. split; [reflexivity|]. unfold DeleteHost, GetHost. rewrite Hk. simpl.
  by rewrite lookup_delete_eq.
Qed.

(** X13: DeleteHost does not look at the monitors: a monitor of the deleted host
    stays in the store, with a HostId that no host has any more. *)
Theorem DeleteHost_leaves_monitors w id k host km m :
  ObjectIdHex id = Some k →
  hosts w !! k = Some host →
  monitors w !! km = Some m →
  HostId m = k →
  ∃ w1, DeleteHost w id = (Ok tt, w1) ∧
    monitors w1 = monitors w ∧
    monitors w1 !! km = Some m ∧
    hosts w1 !! HostId m = None.
Proof.
  intros Hk Hh Hm Href. unfold DeleteHost. rewrite Hk, Hh.
  eexists. split; [reflexivity|]. simpl. split_and!; [done..|].
  rewrite Href. apply lookup_delete_eq.
Qed.

(** X14: AddMonitor writes the new identifier into the caller's variable, so an
    UpdateMonitor with the same variable rewrites the entry that AddMonitor
    made: the monitors map after the two calls is the one after the first,
    and the Broadcaster has been told "monadd" and then "monchange". *)
Theorem AddMonitor_then_UpdateMonitor w p m :
  monMem w !! p = Some m →
  ∃ w1 w2,
    AddMonitor objectIdSeq w p = (Ok tt, w1) ∧
    UpdateMonitor w1 p = (Ok tt, w2) ∧
    monitors w2 = monitors w1 ∧
    monitors w2 !! objectIdSeq (issued w)
      = Some (mkMonitor (objectIdSeq (issued w)) (HostId m) (Interval m) (Agent m)) ∧
    evName <$> published w2
      = ((evName <$> published w) ++ ["monadd"; "monchange"])%list.
Proof.
  intros Hp. unfold AddMonitor. simpl. rewrite Hp.
  eexists _, _. split; [reflexivity|].
  unfold UpdateMonitor. simpl.
  rewrite list_lookup_insert_eq by (by eapply lookup_lt_Some). simpl.
  split; [reflexivity|]. simpl. split_and!.
  - by rewrite insert_insert_eq.
  - by rewrite insert_insert_eq, lookup_insert_eq.
  - by rewrite !fmap_app, <- app_assoc.
Qed.

End Sequences.

(** ** More on the constructor *)

Section ConstructorDetails.

Context {T A : Type}.
Variable GetTransports : gmap string (Plugin T).
Variable GetAgents : gmap string (Plugin A).
Variable objectIdSeq : nat -> ObjectId.
Variable rangeHosts : gmap ObjectId (Host T) -> list (ObjectId * Host T).
Hypothesis rangeHosts_perm : ∀ m, rangeHosts m ≡ₚ map_to_list m.

Implicit Types (s w : World T A) (h host : Host T) (m : Monitor A).

Local Abbreviation load :=
  (NewConfigurationStore GetTransports GetAgents objectIdSeq rangeHosts).
Local Abbreviation hostLoop := (forRange (loadHost GetTransports objectIdSeq)).
Local Abbreviation monitorLoop :=
  (forRange (loadMonitor GetAgents objectIdSeq rangeHosts)).
Local Abbreviation emptyStore n0 := (mkWorld (T := T) (A := A) ∅ ∅ [] [] [] n0).
Local Abbreviation distinct := (distinctIds objectIdSeq).

(** A monitor record that loads, with what it says about its agent. *)
Lemma loadMonitor_Ok_agent s (p : Primitive) s' :
  loadMonitor GetAgents objectIdSeq rangeHosts s p = Ok s' →
  ∃ a plugin, selectedAgent p = Some a ∧ GetAgents !! a = Some plugin ∧
    ∃ agent, primitiveDecode plugin p (construct plugin) = inr agent.
Proof.
  unfold loadMonitor, selectedAgent.
  destruct (decodeProxy p (mkProxy "" "")) as [x| |] eqn:Hd; simpl; try done.
  unfold GetHostByName.
  destruct (firstNamed (proxyHost x) (rangeHosts (hosts s))) as [host|]; simpl; [|done].
  rewrite lookup_app_r, Nat.sub_diag by done. simpl.
  destruct (GetAgents !! proxyAgentID x) as [plugin|] eqn:Hg; [|done].
  destruct (primitiveDecode plugin p (construct plugin)) as [|agent] eqn:Hp; [done|].
  intros _. exists (proxyAgentID x), plugin. split_and!; [done..|by exists agent].
Qed.

(** What a monitor record whose host is there comes to, by its agent. *)
Lemma loadMonitor_known_host s (p : Primitive) name a :
  referencedHost p = Some name → selectedAgent p = Some a →
  (∃ k h, hosts s !! k = Some h ∧ hostName h = name) →
  match GetAgents !! a with
  | None =>
      loadMonitor GetAgents objectIdSeq rangeHosts s p
        = Err (Errorf (unknownAgentMessage a))
  | Some plugin =>
      match primitiveDecode plugin p (construct plugin) with
      | inl msg => loadMonitor GetAgents objectIdSeq rangeHosts s p = Panic msg
      | inr _ => ∃ s', loadMonitor GetAgents objectIdSeq rangeHosts s p = Ok s'
      end
  end.
Proof.
  unfold loadMonitor, referencedHost, selectedAgent.
  destruct (decodeProxy p (mkProxy "" "")) as [x| |] eqn:Hd; simpl; try done.
  intros [= <-] [= <-] Hex.
  destruct (GetHostByName_known _ rangeHosts_perm s (proxyHost x) Hex)
    as (k & host & _ & _ & ->).
  simpl. rewrite lookup_app_r, Nat.sub_diag by done. simpl.
  destruct (GetAgents !! proxyAgentID x) as [plugin|]; [|done].
  destruct (primitiveDecode plugin p (construct plugin)); [done|by eexists].
Qed.

(** X15: After a successful load every host has a transport, built by the plugin
    that is registered under the host's TransportId, and every monitor has an
    agent and a HostId that is the key of a stored host, one with the name
    that a monitor record of the configuration refers to. *)
Theorem load_resolves_references config n0 w :
  load config n0 = Ok w →
  (∀ k h, hosts w !! k = Some h →
     is_Some (GetTransports !! TransportId h) ∧ is_Some (Transport h)) ∧
  (∀ k m, monitors w !! k = Some m →
     is_Some (Agent m) ∧
     ∃ (p : Primitive) h, p ∈ cfgMonitors config ∧
       hosts w !! HostId m = Some h ∧
       referencedHost p = Some (hostName h)).
Proof.
  intros (s1 & Hhosts & Hmons)%(load_Ok _ _ _ _).
  set (hostsOk := fun s : World T A => ∀ k h, hosts s !! k = Some h →
         hostId h = k ∧
         is_Some (GetTransports !! TransportId h) ∧ is_Some (Transport h)).
  set (monitorsOk := fun s : World T A => ∀ k m, monitors s !! k = Some m →
         is_Some (Agent m) ∧
         ∃ (p : Primitive) h, p ∈ cfgMonitors config ∧
           hosts s !! HostId m = Some h ∧
           referencedHost p = Some (hostName h)).
  assert (hostsOk s1 ∧ monitors s1 = ∅) as [H1 Hempty].
  { refine (forRange_invariant (fun s => hostsOk s ∧ monitors s = ∅)
              _ _ _ _ _ _ Hhosts).
    - intros s2 [name p] s3 _ [H2 He] Hb.
      apply loadHost_Ok in Hb as (t & plugin & tr & _ & Hreg & _ & ->).
      split; [|done]. intros k h. simpl. rewrite lookup_insert.
      case_decide; [|apply H2]. intros [= <-]. simpl.
      split_and!; [done|by exists plugin|by exists tr].
    - split; [|done]. intros k h. simpl. by rewrite lookup_empty. }
  assert (hostsOk w ∧ monitorsOk w) as [Hw1 Hw2].
  { refine (forRange_invariant (fun s => hostsOk s ∧ monitorsOk s)
              _ _ _ _ _ _ Hmons).
    - intros s2 p s3 Hin [H2 M2] Hb.
      apply (loadMonitor_Ok _ _ _ rangeHosts_perm) in Hb
        as (name & k0 & host & plugin & agent & Href & Hk0 & Hname & _ & ->).
      split; [done|]. intros k m. simpl. rewrite lookup_insert.
      case_decide; [|apply M2]. intros [= <-]. simpl.
      split; [by exists agent|].
      destruct (H2 _ _ Hk0) as (-> & _). exists p, host.
      by rewrite Hname.
    - split; [done|]. intros k m. by rewrite Hempty, lookup_empty. }
  split; [|done]. intros k h Hk. by destruct (Hw1 _ _ Hk) as (_ & ? & ?).
Qed.

(** X16: A configuration with a monitor record whose agent is not registered never
    yields a store; when the host records and the monitor records visited
    before that record all load, and the record's host is there, the
    constructor returns the error that names the agent. *)
Theorem unknown_agent_aborts_load config n0 (p : Primitive) a :
  p ∈ cfgMonitors config →
  selectedAgent p = Some a →
  GetAgents !! a = None →
  (∀ w, load config n0 ≠ Ok w) ∧
  (∀ pre post s1 s2 name,
     cfgMonitors config = (pre ++ p :: post)%list →
     hostLoop (cfgHosts config) (emptyStore n0) = Ok s1 →
     monitorLoop pre s1 = Ok s2 →
     referencedHost p = Some name →
     (∃ k h, hosts s1 !! k = Some h ∧ hostName h = name) →
     load config n0 = Err (Errorf (unknownAgentMessage a))).
Proof.
  intros Hin Hsel Hreg. split.
  - intros w (s1 & Hhosts & Hmons)%(load_Ok _ _ _ _).
    destruct (forRange_Ok_elem (fun _ => True) _ _ _ _ p
                (fun _ _ _ _ _ => I) I Hmons Hin) as (s2 & s3 & _ & Hb).
    apply loadMonitor_Ok_agent in Hb as (a' & plugin & Hsel' & Hreg' & _).
    congruence.
  - intros pre post s1 s2 name Hsplit Hhosts Hpre Href Hex.
    unfold NewConfigurationStore.
    rewrite Hhosts, result_bind_Ok, Hsplit, forRange_app, Hpre, result_bind_Ok.
    rewrite forRange_cons.
    pose proof (loadMonitor_known_host s2 p name a Href Hsel) as Hrun.
    rewrite Hreg in Hrun. rewrite Hrun; [done|].
    by rewrite (monitorLoop_hosts _ _ _ rangeHosts_perm _ _ _ Hpre).
Qed.

(** X17: A host record whose transport rejects it at the second decode makes the
    constructor panic with the message of the decode error, when the host
    records visited before it load; and no configuration with such a record
    yields a store. *)
Theorem transport_decode_failure_panics config n0 name (p : Primitive) t plugin msg :
  (name, p) ∈ cfgHosts config →
  selectorOf (T := T) p = Some t →
  GetTransports !! t = Some plugin →
  primitiveDecode plugin p (construct plugin) = inl msg →
  (∀ w, load config n0 ≠ Ok w) ∧
  (∀ pre post s,
     cfgHosts config = (pre ++ (name, p) :: post)%list →
     hostLoop pre (emptyStore n0) = Ok s →
     load config n0 = Panic msg).
Proof.
  intros Hin Hsel Hreg Hdec.
  assert (∀ s, loadHost GetTransports objectIdSeq s (name, p) = Panic msg) as Hrun.
  { intros s. revert Hsel. unfold loadHost, selectorOf.
    destruct (decodeHost p zeroHost) as [h0| |]; simpl; try done.
    intros [= <-]. destruct (decide (name = "localhost")); simpl;
      by rewrite Hreg, Hdec. }
  split.
  - intros w (s1 & Hhosts & _)%(load_Ok _ _ _ _).
    destruct (forRange_Ok_elem (fun _ => True) _ _ _ _ (name, p)
                (fun _ _ _ _ _ => I) I Hhosts Hin) as (s2 & s3 & _ & Hb).
    by rewrite Hrun in Hb.
  - intros pre post s Hsplit Hpre. unfold NewConfigurationStore.
    by rewrite Hsplit, forRange_app, Hpre, result_bind_Ok, forRange_cons, Hrun.
Qed.

(** X18: A monitor record whose agent rejects it at the second decode makes the
    constructor panic with the message of the decode error, when all host
    records and the monitor records visited before it load and the record's
    host is there. *)
Theorem agent_decode_failure_panics config n0 (p : Primitive) name a plugin msg
    pre post s1 s2 :
  cfgMonitors config = (pre ++ p :: post)%list →
  hostLoop (cfgHosts config) (emptyStore n0) = Ok s1 →
  monitorLoop pre s1 = Ok s2 →
  referencedHost p = Some name →
  (∃ k h, hosts s1 !! k = Some h ∧ hostName h = name) →
  selectedAgent p = Some a →
  GetAgents !! a = Some plugin →
  primitiveDecode plugin p (construct plugin) = inl msg →
  load config n0 = Panic msg.
Proof.
  intros Hsplit Hhosts Hpre Href Hex Hsel Hreg Hdec.
  unfold NewConfigurationStore.
  rewrite Hhosts, result_bind_Ok, Hsplit, forRange_app, Hpre, result_bind_Ok.
  rewrite forRange_cons.
  pose proof (loadMonitor_known_host s2 p name a Href Hsel) as Hrun.
  rewrite Hreg, Hdec in Hrun. rewrite Hrun; [done|].
  by rewrite (monitorLoop_hosts _ _ _ rangeHosts_perm _ _ _ Hpre).
Qed.

Lemma drawingHosts_cons name (p : Primitive) rest :
  List.length (drawingHosts ((name, p) :: rest)) =
    ((if decide (name = "localhost") then 0 else 1)
     + List.length (drawingHosts rest))%nat.
Proof.
  unfold drawingHosts. rewrite filter_cons. simpl.
  destruct (decide (name = "localhost")) as [->|Hn].
  - by rewrite decide_False by (intros Hne; by apply Hne).
  - by rewrite decide_True.
Qed.

(** X19: The constructor broadcasts nothing, and it draws one identifier for every
    host record but the one of localhost and one for every monitor record,
    no more. *)
Theorem load_is_silent_and_counts config n0 w :
  load config n0 = Ok w →
  published w = [] ∧
  issued w = (n0 + List.length (drawingHosts (cfgHosts config))
                 + List.length (cfgMonitors config))%nat.
Proof.
  intros (s1 & Hhosts & Hmons)%(load_Ok _ _ _ _).
  assert (∀ records s s', hostLoop records s = Ok s' →
            published s' = published s ∧
            issued s' = (issued s + List.length (drawingHosts records))%nat) as Hh.
  { induction records as [|[name p] rest IH]; intros s s'.
    - simpl. intros [= <-]. split; [done|]. unfold drawingHosts. simpl. lia.
    - rewrite forRange_cons, drawingHosts_cons.
      destruct (loadHost GetTransports objectIdSeq s (name, p)) as [s2| |] eqn:Hb;
        [rewrite result_bind_Ok|done..].
      intros [Hp Hi]%IH.
      apply loadHost_Ok in Hb as (? & ? & ? & _ & _ & _ & ->).
      simpl in *. rewrite Hp, Hi. unfold issuedAfterHost.
      split; [done|]. destruct (decide (name = "localhost")); lia. }
  assert (∀ records s s', monitorLoop records s = Ok s' →
            published s' = published s ∧
            issued s' = (issued s + List.length records)%nat) as Hm.
  { induction records as [|p rest IH]; intros s s'.
    - simpl. intros [= <-]. split; [done|lia].
    - rewrite forRange_cons.
      destruct (loadMonitor GetAgents objectIdSeq rangeHosts s p) as [s2| |] eqn:Hb;
        [rewrite result_bind_Ok|done..].
      intros [Hp Hi]%IH.
      apply (loadMonitor_Ok _ _ _ rangeHosts_perm) in Hb
        as (? & ? & ? & ? & ? & _ & _ & _ & _ & ->).
      simpl in *. rewrite Hp, Hi. split; [done|lia]. }
  destruct (Hh _ _ _ Hhosts) as [Hp1 Hi1], (Hm _ _ _ Hmons) as [Hp2 Hi2].
  simpl in *. split; [congruence|lia].
Qed.

Lemma monitorLoop_keeps_every_monitor n0 records : ∀ s s',
  monitorLoop records s = Ok s' →
  distinct (issued s') →
  monitorsIssued objectIdSeq n0 s → (n0 ≤ issued s)%nat →
  monitorsIssued objectIdSeq n0 s' ∧
  size (monitors s') = (size (monitors s) + List.length records)%nat.
Proof.
  induction records as [|p rest IH]; intros s s'.
  - simpl. intros [= <-] _ Hs _. split; [done|lia].
  - rewrite forRange_cons.
    destruct (loadMonitor GetAgents objectIdSeq rangeHosts s p) as [s2| |] eqn:Hb;
      [rewrite result_bind_Ok|done..].
    intros Hrest Hd Hs Hn0.
    pose proof (monitorLoop_issued _ _ _ rangeHosts_perm _ _ _ Hrest) as Hle.
    apply (loadMonitor_Ok _ _ _ rangeHosts_perm) in Hb
      as (? & ? & host & ? & agent & _ & _ & _ & _ & ->).
    simpl in Hle.
    assert (monitors s !! objectIdSeq (issued s) = None) as Hfresh.
    { destruct (monitors s !! objectIdSeq (issued s)) as [m0|] eqn:Hk; [|done].
      exfalso. destruct (Hs _ _ Hk) as (i & Hi & Hi').
      assert (issued s = i); [|lia].
      apply (distinctIds_inj objectIdSeq _ _ _ Hd); [lia..|done]. }
    destruct (IH _ _ Hrest Hd) as [Hs' Hsize]; simpl.
    + intros k m. simpl. rewrite lookup_insert. case_decide.
      * intros _. exists (issued s). split; [lia|done].
      * intros Hk. destruct (Hs _ _ Hk) as (i & Hi & ->). exists i.
        split; [lia|done].
    + lia.
    + split; [done|]. rewrite Hsize. simpl.
      rewrite map_size_insert_None by done. lia.
Qed.

(** X20: When the constructor returns a store and the identifier scheme has not
    repeated itself, the store has one monitor for every monitor record, none
    overwritten, each under an identifier drawn during this load; and no
    monitor has the identifier of a host. *)
Theorem load_keeps_every_monitor config n0 w :
  load config n0 = Ok w →
  distinct (issued w) →
  size (monitors w) = List.length (cfgMonitors config) ∧
  monitorsIssued objectIdSeq n0 w ∧
  ∀ k m h, monitors w !! k = Some m → hosts w !! k = Some h → False.
Proof.
  intros Hload Hd.
  pose proof Hload as (s1 & Hhosts & Hmons)%(load_Ok _ _ _ _).
  assert (monitors s1 = ∅) as Hempty.
  { refine (forRange_invariant (fun s => monitors s = ∅) _ _ _ _ _ eq_refl Hhosts).
    intros s2 [name p] s3 _ H2 Hb.
    by apply loadHost_Ok in Hb as (? & ? & ? & _ & _ & _ & ->). }
  pose proof (hostLoop_issued _ _ _ _ _ Hhosts) as Hn0. simpl in Hn0.
  assert (hostsIssued objectIdSeq s1) as Hs1.
  { refine (forRange_invariant (hostsIssued objectIdSeq) _ _ _ _ _ _ Hhosts).
    - intros s2 [name p] s3 _ H2 Hb.
      apply loadHost_Ok in Hb as (? & ? & ? & _ & _ & _ & ->).
      intros k h. simpl. unfold hostIdFor, issuedAfterHost.
      rewrite lookup_insert. case_decide as Hk.
      + intros _. subst k. case_decide; [by left|right].
        exists (issued s2). split; [lia|done].
      + intros Hh. destruct (H2 _ _ Hh) as [->|(i & Hi & ->)]; [by left|right].
        exists i. split; [case_decide; lia|done].
    - intros k h. simpl. by rewrite lookup_empty. }
  assert (monitorsIssued objectIdSeq (issued s1) w ∧
          size (monitors w) = (size (monitors s1)
                               + List.length (cfgMonitors config))%nat)
    as [Hissued Hsize].
  { apply (monitorLoop_keeps_every_monitor (issued s1) _ s1 w); [done..| |done].
    intros k m. by rewrite Hempty, lookup_empty. }
  split_and!.
  - by rewrite Hsize, Hempty, map_size_empty.
  - intros k m Hk. destruct (Hissued _ _ Hk) as (i & Hi & ->).
    exists i. split; [lia|done].
  - intros k m h Hk Hh. destruct (Hissued _ _ Hk) as (i & Hi & ->).
    rewrite (monitorLoop_hosts _ _ _ rangeHosts_perm _ _ _ Hmons) in Hh.
    destruct (Hs1 _ _ Hh) as [Hz|(j & Hj & Hj')].
    + by apply (distinctIds_reserved objectIdSeq _ i Hd); [lia|].
    + assert (i = j); [|lia].
      apply (distinctIds_inj objectIdSeq _ _ _ Hd); [lia..|done].
Qed.

(** X21: After a successful load, with unique record names and an identifier
    scheme that has not repeated itself, the host of every host record is
    found by GetHostByName under the record's name, and the host of the
    record named "localhost" is found by GetHost under the id of 24
    hexadecimal zeros. *)
Theorem loaded_hosts_are_found config n0 w name (p : Primitive) :
  NoDup (cfgHosts config).*1 →
  load config n0 = Ok w →
  distinct (issued w) →
  (name, p) ∈ cfgHosts config →
  ∃ host q w1,
    GetHostByName rangeHosts w name = (Ok q, w1) ∧
    hostMem w1 !! q = Some host ∧
    hostName host = name ∧
    hosts w !! hostId host = Some host ∧
    (name = "localhost" →
       GetHost w localhostHex
         = (Ok (List.length (hostMem w)),
            setHostMem (hostMem w ++ [host])%list w)).
Proof.
  intros Hnd Hload Hd Hin.
  pose proof Hload as (s1 & Hhosts & Hmons)%(load_Ok _ _ _ _).
  pose proof (monitorLoop_issued _ _ _ rangeHosts_perm _ _ _ Hmons) as Hle.
  pose proof (monitorLoop_hosts _ _ _ rangeHosts_perm _ _ _ Hmons) as Heq.
  assert (hostsLoaded objectIdSeq n0 (cfgHosts config).*1 s1)
    as (Hkeys & Hall & _ & _).
  { apply (hostLoop_hostsLoaded GetTransports objectIdSeq n0 _ []
             (emptyStore n0)); [done| |done|].
    - split_and!; simpl; [|by intros ? ?%elem_of_nil|done|done].
      intros k h. by rewrite lookup_empty.
    - by apply (distinctIds_mono _ _ (issued w)). }
  assert (∀ k h, hosts w !! k = Some h → hostName h = name →
            ∃ h0, hosts w !! hostId h0 = Some h0 ∧ hostName h0 = name ∧ h = h0)
    as Hunique.
  { intros k h Hk Hn. rewrite Heq in Hk. destruct (Hkeys _ _ Hk) as (<- & _).
    exists h. by rewrite Heq. }
  destruct (GetHostByName_known _ rangeHosts_perm w name) as (k & host & Hk & Hn & Hrun).
  { destruct (Hall name) as (h & Hh & Hname).
    { apply list_elem_of_fmap. by exists (name, p). }
    exists (hostId h), h. by rewrite Heq. }
  destruct (Hunique _ _ Hk Hn) as (h0 & Hh0 & _ & <-).
  exists host, (List.length (hostMem w)),
    (setHostMem (hostMem w ++ [host])%list w).
  split_and!; [done| |done..|].
  - simpl. by rewrite lookup_app_r, Nat.sub_diag.
  - intros Hlocal. rewrite Heq in Hk.
    destruct (Hkeys _ _ Hk) as (Hid & _ & Hby). unfold assignedBy in Hby.
    rewrite Hn, decide_True in Hby by done.
    rewrite (GetHost_well_formed w localhostHex localhostId ObjectIdHex_localhost).
    by rewrite <- Hby, Hh0.
Qed.

End ConstructorDetails.

(** ** More concrete runs *)

Lemma Demo_monitorOrder_perm m : Demo.monitorOrder m ≡ₚ map_to_list m.
Proof. reflexivity. Defined.

Lemma Demo_webId : ObjectIdHex "016162636465666768696a6b" = Some (Demo.ids 0).
Proof. vm_compute. reflexivity. Defined.

Lemma Demo_cpuId : ObjectIdHex "026162636465666768696a6b" = Some (Demo.ids 1).
Proof. vm_compute. reflexivity. Defined.

Lemma Demo_nextId : ObjectIdHex "036162636465666768696a6b" = Some (Demo.ids 2).
Proof. vm_compute. reflexivity. Defined.

Lemma Demo_reachable_withHost :
  reachable Demo.transports Demo.agents Demo.ids Demo.order Demo.withHost.
Proof.
  apply (reachable_step _ _ _ _ Demo.loaded);
    [exact Demo_reachable_loaded|apply step_newHost].
Defined.

(** X1, on the demo: The two hosts of the loaded demo store, listed. *)
Lemma GetAllHosts_lists_every_host_witness :
  ∃ l, GetAllHosts Demo.order Demo.loaded = (Ok l, Demo.loaded) ∧
       List.length l = 2%nat.
Proof.
  destruct (GetAllHosts_lists_every_host Demo.order Demo_order_perm Demo.loaded)
    as (l & Hrun & _ & _ & Hlen & _).
  exists l. split; [exact Hrun|].
  rewrite Hlen. vm_compute. reflexivity.
Defined.

(** X2, on the demo: The one monitor of the loaded demo store, listed. *)
Lemma GetAllMonitors_lists_every_monitor_witness :
  ∃ l, GetAllMonitors Demo.monitorOrder Demo.loaded = (Ok l, Demo.loaded) ∧
       List.length l = 1%nat.
Proof.
  destruct (GetAllMonitors_lists_every_monitor Demo.monitorOrder
              Demo_monitorOrder_perm Demo.loaded)
    as (l & Hrun & _ & _ & Hlen & _).
  exists l. split; [exact Hrun|].
  rewrite Hlen. vm_compute. reflexivity.
Defined.

(** X3, on the demo: The monitor of the loaded demo store, found by its id. *)
Lemma GetMonitor_finds_by_id_witness :
  ObjectIdHex "026162636465666768696a6b" = Some (Demo.ids 1) ∧
  ∃ m, monitors Demo.loaded !! Demo.ids 1 = Some m ∧
    GetMonitor Demo.monitorOrder Demo.loaded "026162636465666768696a6b"
      = (Ok (List.length (monMem Demo.loaded)),
         setMonMem (monMem Demo.loaded ++ [m])%list Demo.loaded).
Proof.
  split; [exact Demo_cpuId|].
  assert (∀ k' m, monitors Demo.loaded !! k' = Some m → monId m = k') as Hkeys.
  { apply map_Forall_to_list, (bool_decide_unpack _). vm_compute. exact I. }
  pose proof (GetMonitor_finds_by_id Demo.monitorOrder Demo_monitorOrder_perm
                Demo.loaded "026162636465666768696a6b" (Demo.ids 1)
                Demo_cpuId Hkeys) as Hrun.
  assert (monitors Demo.loaded !! Demo.ids 1
          = Some (mkMonitor (Demo.ids 1) (Demo.ids 0) (second * 10) (Some tt)))
    as Hthere.
  { vm_compute. reflexivity. }
  rewrite Hthere in Hrun. eexists. split; [exact Hthere|exact Hrun].
Defined.

(** X4, on the demo: A host name in place of an id: GetMonitor panics on the loaded demo
    store and returns ErrMonitorNotFound on a store without monitors. *)
Lemma GetMonitor_malformed_id_witness :
  ObjectIdHex "web" = None ∧
  GetMonitor Demo.monitorOrder Demo.loaded "web"
    = (Panic invalidObjectIdHex, Demo.loaded) ∧
  GetMonitor Demo.monitorOrder
    (mkWorld (T := string) (A := unit) ∅ ∅ [] [] [] 0%nat) "web"
    = (Err ErrMonitorNotFound, mkWorld ∅ ∅ [] [] [] 0%nat).
Proof.
  assert (ObjectIdHex "web" = None) as Hid.
  { vm_compute. reflexivity. }
  split; [exact Hid|]. split.
  - pose proof (GetMonitor_malformed_id Demo.monitorOrder Demo_monitorOrder_perm
                  Demo.loaded "web" Hid) as Hrun.
    rewrite decide_False in Hrun; [exact Hrun|].
    intros Hempty.
    assert (size (monitors Demo.loaded) = 1%nat) as Hsize.
    { vm_compute. reflexivity. }
    rewrite Hempty, map_size_empty in Hsize. discriminate Hsize.
  - pose proof (GetMonitor_malformed_id Demo.monitorOrder Demo_monitorOrder_perm
                  (mkWorld (T := string) (A := unit) ∅ ∅ [] [] [] 0%nat)
                  "web" Hid) as Hrun.
    rewrite decide_True in Hrun; [exact Hrun|reflexivity].
Defined.

(** X5, on the demo: GetHost on the loaded demo store, with the id of localhost and with an
    id of no host. *)
Lemma GetHost_returns_copy_witness :
  ObjectIdHex localhostHex = Some localhostId ∧
  (∃ p w1, GetHost Demo.loaded localhostHex = (Ok p, w1) ∧
     hosts (setHostMem (<[p := Demo.newHost]> (hostMem w1)) w1)
       = hosts Demo.loaded) ∧
  GetHost Demo.loaded "ffffffffffffffffffffffff"
    = (Err ErrorInvalidId, Demo.loaded).
Proof.
  split; [exact ObjectIdHex_localhost|]. split.
  - destruct (GetHost_returns_copy Demo.loaded localhostHex localhostId
                ObjectIdHex_localhost) as [_ Hthere].
    destruct (Hthere (mkHost localhostId "localhost" "localtransport" (Some "")))
      as (p & w1 & Hrun & _ & _ & _ & Hframe).
    { vm_compute. reflexivity. }
    exists p, w1. split; [exact Hrun|].
    destruct (Hframe Demo.newHost) as [Hhosts _]. exact Hhosts.
  - assert (∃ k, ObjectIdHex "ffffffffffffffffffffffff" = Some k ∧
                 hosts Demo.loaded !! k = None) as (k & Hk & Hnone).
    { eexists. split; vm_compute; reflexivity. }
    destruct (GetHost_returns_copy Demo.loaded "ffffffffffffffffffffffff" k Hk)
      as [Habsent _].
    destruct (Habsent Hnone) as [Hrun _]. exact Hrun.
Defined.

(** X7, on the demo: A host name in place of an id, on the loaded demo store. *)
Lemma id_of_wrong_length_panics_witness :
  String.length "web" ≠ 24%nat ∧
  DeleteHost Demo.loaded "web" = (Panic invalidObjectIdHex, Demo.loaded).
Proof.
  assert (String.length "web" ≠ 24%nat) as Hlen.
  { apply (bool_decide_unpack _). vm_compute. exact I. }
  split; [exact Hlen|].
  destruct (id_of_wrong_length_panics Demo.loaded "web" Hlen) as (_ & Hrun & _).
  exact Hrun.
Defined.

(** X8, on the demo: AddMonitor with the caller's Monitor variable, on the loaded demo store. *)
Lemma AddMonitor_stores_under_new_id_witness :
  monMem Demo.withMonitor !! 0%nat = Some Demo.newMonitor ∧
  ∃ w', AddMonitor Demo.ids Demo.withMonitor 0 = (Ok tt, w') ∧
    size (monitors w') = 2%nat ∧
    hosts w' = hosts Demo.withMonitor.
Proof.
  assert (monMem Demo.withMonitor !! 0%nat = Some Demo.newMonitor) as Hp.
  { vm_compute. reflexivity. }
  split; [exact Hp|].
  destruct (AddMonitor_stores_under_new_id Demo.ids Demo.withMonitor 0%nat
              Demo.newMonitor Hp)
    as (w' & Hrun & _ & Hnew & _ & _ & Hhosts & _).
  exists w'. split; [exact Hrun|]. split; [|exact Hhosts].
  rewrite Hnew; vm_compute; reflexivity.
Defined.

(** X9, on the demo: DeleteMonitor on the loaded demo store, with the id of its monitor and
    with an id of no monitor. *)
Lemma DeleteMonitor_spec_witness :
  ObjectIdHex "026162636465666768696a6b" = Some (Demo.ids 1) ∧
  (∃ w', DeleteMonitor Demo.loaded "026162636465666768696a6b" = (Ok tt, w') ∧
         S (size (monitors w')) = size (monitors Demo.loaded) ∧
         hosts w' = hosts Demo.loaded) ∧
  DeleteMonitor Demo.loaded localhostHex = (Err ErrMonitorNotFound, Demo.loaded).
Proof.
  split; [exact Demo_cpuId|]. split.
  - destruct (DeleteMonitor_spec Demo.loaded "026162636465666768696a6b"
                (Demo.ids 1) Demo_cpuId) as [_ Hthere].
    destruct (Hthere (mkMonitor (Demo.ids 1) (Demo.ids 0) (second * 10) (Some tt)))
      as (w' & Hrun & _ & _ & Hsize & Hhosts & _).
    { vm_compute. reflexivity. }
    exists w'. split; [exact Hrun|]. split; [exact Hsize|exact Hhosts].
  - destruct (DeleteMonitor_spec Demo.loaded localhostHex localhostId
                ObjectIdHex_localhost) as [Habsent _].
    apply Habsent. vm_compute. reflexivity.
Defined.

(** X10, on the demo: AddHost and then GetHost, with the caller's Host variable at address 1. *)
Lemma AddHost_then_GetHost_witness :
  hostMem Demo.withHost !! 1%nat = Some Demo.newHost ∧
  ObjectIdHex "036162636465666768696a6b"
    = Some (Demo.ids (issued Demo.withHost)) ∧
  ∃ w1 q w2,
    AddHost Demo.ids Demo.withHost 1 = (Ok tt, w1) ∧
    GetHost w1 "036162636465666768696a6b" = (Ok q, w2) ∧
    q ≠ 1%nat ∧
    hostMem w2 !! q
      = Some (mkHost (Demo.ids (issued Demo.withHost)) "backup" "ssh" None).
Proof.
  assert (hostMem Demo.withHost !! 1%nat = Some Demo.newHost) as Hp.
  { vm_compute. reflexivity. }
  assert (ObjectIdHex "036162636465666768696a6b"
          = Some (Demo.ids (issued Demo.withHost))) as Hid.
  { vm_compute. reflexivity. }
  split; [exact Hp|]. split; [exact Hid|].
  destruct (AddHost_then_GetHost Demo.ids Demo.withHost 1%nat Demo.newHost
              "036162636465666768696a6b" Hp Hid)
    as (w1 & q & w2 & Hadd & Hget & Hne & Hcell & _).
  exists w1, q, w2. split; [exact Hadd|]. split; [exact Hget|].
  split; [exact Hne|exact Hcell].
Defined.

(** X11, on the demo: AddHost and then DeleteHost of the new host, from the loaded demo
    store. *)
Lemma AddHost_then_DeleteHost_witness :
  reachable Demo.transports Demo.agents Demo.ids Demo.order Demo.withHost ∧
  distinctIds Demo.ids (S (issued Demo.withHost)) ∧
  ∃ w1 w2,
    AddHost Demo.ids Demo.withHost 1 = (Ok tt, w1) ∧
    DeleteHost w1 "036162636465666768696a6b" = (Ok tt, w2) ∧
    hosts w2 = hosts Demo.withHost.
Proof.
  assert (distinctIds Demo.ids (S (issued Demo.withHost))) as Hd.
  { unfold distinctIds. apply (bool_decide_unpack _). vm_compute. exact I. }
  assert (hostMem Demo.withHost !! 1%nat = Some Demo.newHost) as Hp.
  { vm_compute. reflexivity. }
  assert (ObjectIdHex "036162636465666768696a6b"
          = Some (Demo.ids (issued Demo.withHost))) as Hid.
  { vm_compute. reflexivity. }
  split; [exact Demo_reachable_withHost|]. split; [exact Hd|].
  destruct (AddHost_then_DeleteHost Demo.transports Demo.agents Demo.ids
              Demo.order Demo_order_perm Demo.withHost 1%nat Demo.newHost
              "036162636465666768696a6b" Demo_reachable_withHost Hd Hp Hid)
    as (w1 & w2 & Hadd & Hdel & Hhosts & _).
  exists w1, w2. split; [exact Hadd|]. split; [exact Hdel|exact Hhosts].
Defined.

(** X12, on the demo: DeleteHost of localhost, twice, on the loaded demo store. *)
Lemma DeleteHost_twice_witness :
  ObjectIdHex localhostHex = Some localhostId ∧
  ∃ w1, DeleteHost Demo.loaded localhostHex = (Ok tt, w1) ∧
    DeleteHost w1 localhostHex = (Err ErrHostNotFound, w1).
Proof.
  split; [exact ObjectIdHex_localhost|].
  destruct (DeleteHost_twice Demo.loaded localhostHex localhostId
              (mkHost localhostId "localhost" "localtransport" (Some ""))
              ObjectIdHex_localhost) as (w1 & Hfirst & Hsecond & _).
  { vm_compute. reflexivity. }
  exists w1. split; [exact Hfirst|exact Hsecond].
Defined.

(** X13, on the demo: DeleteHost of the host web, whose monitor stays. *)
Lemma DeleteHost_leaves_monitors_witness :
  ObjectIdHex "016162636465666768696a6b" = Some (Demo.ids 0) ∧
  ∃ w1 m, DeleteHost Demo.loaded "016162636465666768696a6b" = (Ok tt, w1) ∧
    monitors w1 !! Demo.ids 1 = Some m ∧
    hosts w1 !! HostId m = None.
Proof.
  split; [exact Demo_webId|].
  destruct (DeleteHost_leaves_monitors Demo.loaded "016162636465666768696a6b"
              (Demo.ids 0)
              (mkHost (Demo.ids 0) "web" "ssh" (Some "10.0.0.7"))
              (Demo.ids 1)
              (mkMonitor (Demo.ids 1) (Demo.ids 0) (second * 10) (Some tt))
              Demo_webId)
    as (w1 & Hrun & _ & Hstays & Hdangling).
  { vm_compute. reflexivity. }
  { vm_compute. reflexivity. }
  { reflexivity. }
  exists w1, (mkMonitor (Demo.ids 1) (Demo.ids 0) (second * 10) (Some tt)).
  split; [exact Hrun|]. split; [exact Hstays|exact Hdangling].
Defined.

(** X14, on the demo: AddMonitor and then UpdateMonitor with the same variable. *)
Lemma AddMonitor_then_UpdateMonitor_witness :
  monMem Demo.withMonitor !! 0%nat = Some Demo.newMonitor ∧
  ∃ w1 w2,
    AddMonitor Demo.ids Demo.withMonitor 0 = (Ok tt, w1) ∧
    UpdateMonitor w1 0 = (Ok tt, w2) ∧
    monitors w2 = monitors w1.
Proof.
  assert (monMem Demo.withMonitor !! 0%nat = Some Demo.newMonitor) as Hp.
  { vm_compute. reflexivity. }
  split; [exact Hp|].
  destruct (AddMonitor_then_UpdateMonitor Demo.ids Demo.withMonitor 0%nat
              Demo.newMonitor Hp) as (w1 & w2 & Hadd & Hupd & Hsame & _).
  exists w1, w2. split; [exact Hadd|]. split; [exact Hupd|exact Hsame].
Defined.

(** X15, on the demo: The references of the loaded demo store. *)
Lemma load_resolves_references_witness :
  Demo.load Demo.config = Ok Demo.loaded ∧
  size (hosts Demo.loaded) = 2%nat ∧ size (monitors Demo.loaded) = 1%nat ∧
  (∀ k h, hosts Demo.loaded !! k = Some h →
     is_Some (Demo.transports !! TransportId h) ∧ is_Some (Transport h)) ∧
  (∀ k m, monitors Demo.loaded !! k = Some m →
     is_Some (Agent m) ∧
     ∃ (p : Primitive) h, p ∈ cfgMonitors Demo.config ∧
       hosts Demo.loaded !! HostId m = Some h ∧
       referencedHost p = Some (hostName h)).
Proof.
  split; [exact Demo_load_config|].
  split; [vm_compute; reflexivity|]. split; [vm_compute; reflexivity|].
  exact (load_resolves_references Demo.transports Demo.agents Demo.ids
           Demo.order Demo_order_perm Demo.config 0%nat Demo.loaded
           Demo_load_config).
Defined.

(** X21, on the demo: The hosts of the demo configuration, found after the load. *)
Lemma loaded_hosts_are_found_witness :
  NoDup (cfgHosts Demo.config).*1 ∧
  Demo.load Demo.config = Ok Demo.loaded ∧
  distinctIds Demo.ids (issued Demo.loaded) ∧
  (∃ host, GetHost Demo.loaded localhostHex
             = (Ok (List.length (hostMem Demo.loaded)),
                setHostMem (hostMem Demo.loaded ++ [host])%list Demo.loaded) ∧
           hostName host = "localhost") ∧
  (∃ host q w1, GetHostByName Demo.order Demo.loaded "web" = (Ok q, w1) ∧
                hostMem w1 !! q = Some host ∧ hostName host = "web").
Proof.
  assert (NoDup (cfgHosts Demo.config).*1) as Hnd.
  { apply (bool_decide_unpack _). vm_compute. exact I. }
  assert (distinctIds Demo.ids (issued Demo.loaded)) as Hd.
  { unfold distinctIds. apply (bool_decide_unpack _). vm_compute. exact I. }
  split; [exact Hnd|]. split; [exact Demo_load_config|]. split; [exact Hd|].
  split.
  - destruct (loaded_hosts_are_found Demo.transports Demo.agents Demo.ids
                Demo.order Demo_order_perm Demo.config 0%nat Demo.loaded
                "localhost" Demo.localRecord Hnd Demo_load_config Hd)
      as (host & _ & _ & _ & _ & Hname & _ & Hget).
    { apply list_elem_of_here. }
    exists host. split; [exact (Hget eq_refl)|exact Hname].
  - destruct (loaded_hosts_are_found Demo.transports Demo.agents Demo.ids
                Demo.order Demo_order_perm Demo.config 0%nat Demo.loaded
                "web" Demo.sshRecord Hnd Demo_load_config Hd)
      as (host & q & w1 & Hrun & Hcell & Hname & _).
    { apply list_elem_of_further, list_elem_of_here. }
    exists host, q, w1. split; [exact Hrun|]. split; [exact Hcell|exact Hname].
Defined.

(** X16, on the demo: A configuration whose second monitor record selects the unregistered
    agent ping. *)
Lemma unknown_agent_aborts_load_witness :
  Demo.pingRecord ∈ cfgMonitors Demo.pingConfig ∧
  selectedAgent Demo.pingRecord = Some "ping" ∧
  Demo.agents !! "ping" = None ∧
  (∀ w, Demo.load Demo.pingConfig ≠ Ok w) ∧
  Demo.load Demo.pingConfig = Err (Errorf "unknown agent 'ping'").
Proof.
  assert (Demo.pingRecord ∈ cfgMonitors Demo.pingConfig) as Hin.
  { apply list_elem_of_further, list_elem_of_here. }
  assert (selectedAgent Demo.pingRecord = Some "ping") as Hsel.
  { vm_compute. reflexivity. }
  assert (Demo.agents !! "ping" = None) as Hreg.
  { vm_compute. reflexivity. }
  destruct (unknown_agent_aborts_load Demo.transports Demo.agents Demo.ids
              Demo.order Demo_order_perm Demo.pingConfig 0%nat Demo.pingRecord
              "ping" Hin Hsel Hreg) as [Hnever Hfirst].
  split; [exact Hin|]. split; [exact Hsel|]. split; [exact Hreg|].
  split; [exact Hnever|].
  assert (∃ s1 s2,
            forRange (loadHost Demo.transports Demo.ids)
              (cfgHosts Demo.pingConfig)
              (mkWorld (T := string) (A := unit) ∅ ∅ [] [] [] 0%nat) = Ok s1 ∧
            forRange (loadMonitor Demo.agents Demo.ids Demo.order)
              [Demo.cpuRecord] s1 = Ok s2 ∧
            hosts s1 !! Demo.ids 0
              = Some (mkHost (Demo.ids 0) "web" "ssh" (Some "10.0.0.7")))
    as (s1 & s2 & H1 & H2 & H3).
  { eexists _, _. split_and!; vm_compute; reflexivity. }
  apply (Hfirst [Demo.cpuRecord] [] s1 s2 "web" eq_refl H1 H2).
  - vm_compute. reflexivity.
  - eexists _, _. split; [exact H3|reflexivity].
Defined.

(** X17, on the demo: A configuration whose second host record gives the ssh transport an
    address that is no string. *)
Lemma transport_decode_failure_panics_witness :
  ("gw", Demo.badAddressRecord) ∈ cfgHosts Demo.badAddressConfig ∧
  selectorOf (T := string) Demo.badAddressRecord = Some "ssh" ∧
  (∀ w, Demo.load Demo.badAddressConfig ≠ Ok w) ∧
  Demo.load Demo.badAddressConfig = Panic "toml: incompatible types".
Proof.
  assert (("gw", Demo.badAddressRecord) ∈ cfgHosts Demo.badAddressConfig) as Hin.
  { apply list_elem_of_further, list_elem_of_here. }
  assert (selectorOf (T := string) Demo.badAddressRecord = Some "ssh") as Hsel.
  { vm_compute. reflexivity. }
  assert (∃ plugin, Demo.transports !! "ssh" = Some plugin ∧
            primitiveDecode plugin Demo.badAddressRecord (construct plugin)
              = inl "toml: incompatible types") as (plugin & Hreg & Hdec).
  { eexists. split; vm_compute; reflexivity. }
  destruct (transport_decode_failure_panics Demo.transports Demo.agents Demo.ids
              Demo.order Demo.badAddressConfig 0%nat "gw" Demo.badAddressRecord
              "ssh" plugin "toml: incompatible types" Hin Hsel Hreg Hdec)
    as [Hnever Hfirst].
  split; [exact Hin|]. split; [exact Hsel|]. split; [exact Hnever|].
  assert (∃ s, forRange (loadHost Demo.transports Demo.ids)
                 [("localhost", Demo.localRecord)]
                 (mkWorld (T := string) (A := unit) ∅ ∅ [] [] [] 0%nat)
               = Ok s) as [s Hpre].
  { eexists. vm_compute. reflexivity. }
  exact (Hfirst [("localhost", Demo.localRecord)] [] s eq_refl Hpre).
Defined.

(** X18, on the demo: A configuration whose monitor record gives the noted agent a note that
    is no string. *)
Lemma agent_decode_failure_panics_witness :
  selectedAgent Demo.badNoteRecord = Some "noted" ∧
  referencedHost Demo.badNoteRecord = Some "web" ∧
  NewConfigurationStore Demo.transports Demo.strictAgents Demo.ids Demo.order
    Demo.badNoteConfig 0 = Panic "toml: incompatible types".
Proof.
  assert (selectedAgent Demo.badNoteRecord = Some "noted") as Hsel.
  { vm_compute. reflexivity. }
  assert (referencedHost Demo.badNoteRecord = Some "web") as Href.
  { vm_compute. reflexivity. }
  split; [exact Hsel|]. split; [exact Href|].
  assert (∃ plugin, Demo.strictAgents !! "noted" = Some plugin ∧
            primitiveDecode plugin Demo.badNoteRecord (construct plugin)
              = inl "toml: incompatible types") as (plugin & Hreg & Hdec).
  { eexists. split; vm_compute; reflexivity. }
  assert (∃ s1,
            forRange (loadHost Demo.transports Demo.ids)
              (cfgHosts Demo.badNoteConfig)
              (mkWorld (T := string) (A := unit) ∅ ∅ [] [] [] 0%nat) = Ok s1 ∧
            hosts s1 !! Demo.ids 0
              = Some (mkHost (Demo.ids 0) "web" "ssh" (Some "10.0.0.7")))
    as (s1 & H1 & H3).
  { eexists. split; vm_compute; reflexivity. }
  apply (agent_decode_failure_panics Demo.transports Demo.strictAgents Demo.ids
           Demo.order Demo_order_perm Demo.badNoteConfig 0%nat Demo.badNoteRecord
           "web" "noted" plugin "toml: incompatible types" [] [] s1 s1
           eq_refl H1 eq_refl Href).
  - eexists _, _. split; [exact H3|reflexivity].
  - exact Hsel.
  - exact Hreg.
  - exact Hdec.
Defined.

(** X19, on the demo: The demo load: no broadcast, two identifiers drawn. *)
Lemma load_is_silent_and_counts_witness :
  Demo.load Demo.config = Ok Demo.loaded ∧
  published Demo.loaded = [] ∧ issued Demo.loaded = 2%nat.
Proof.
  split; [exact Demo_load_config|].
  destruct (load_is_silent_and_counts Demo.transports Demo.agents Demo.ids
              Demo.order Demo_order_perm Demo.config 0%nat Demo.loaded
              Demo_load_config) as [Hsilent Hcount].
  split; [exact Hsilent|]. rewrite Hcount. vm_compute. reflexivity.
Defined.

(** X20, on the demo: The demo load keeps its one monitor. *)
Lemma load_keeps_every_monitor_witness :
  Demo.load Demo.config = Ok Demo.loaded ∧
  distinctIds Demo.ids (issued Demo.loaded) ∧
  size (monitors Demo.loaded) = 1%nat.
Proof.
  assert (distinctIds Demo.ids (issued Demo.loaded)) as Hd.
  { unfold distinctIds. apply (bool_decide_unpack _). vm_compute. exact I. }
  split; [exact Demo_load_config|]. split; [exact Hd|].
  destruct (load_keeps_every_monitor Demo.transports Demo.agents Demo.ids
              Demo.order Demo_order_perm Demo.config 0%nat Demo.loaded
              Demo_load_config Hd) as (Hsize & _).
  exact Hsize.
Defined.
